(** * Import resolution and rule generation of the Gazelle JavaScript extension

    A shallow embedding of [gazelle/resolver.go] and [gazelle/js.go], with
    the parts of the Go standard library ([strings], [path]) and of
    bazel-gazelle ([label], [rule], [resolve]) those two files call.

    Go strings are byte sequences; they are [string]s here (one [ascii] per
    byte).  Go maps are [gmap]s.  A Go call that can panic or loop for ever
    returns a [result]; the loop of [findJsConfig] takes its bound as an
    argument [fuel], which its callers pass on.  What the code prints with
    [log] is a list of [logEntry] threaded through [Resolve].  Parameters
    the code does not read ([c], [rc], the receiver) are left out.  The case
    tables of package [unicode], which [strings.ToLower] reads for text
    outside ASCII, are a parameter [unicodeLower] of [ToLower], [Imports]
    and [AddRule]. *)

From Stdlib Require Import Ascii String List Arith Lia Permutation.
From stdpp Require Import base tactics option list gmap strings sorting.

(** ** Outcome of a Go call *)

(** [Done a]: the call returned [a].  [Panic]: a run-time panic (index out of
    range).  [OutOfFuel]: the loop bound given to the model was used up. *)
Inductive result (A : Type) : Type :=
| Done (a : A)
| Panic
| OutOfFuel.
Arguments Done {A} a.
Arguments Panic {A}.
Arguments OutOfFuel {A}.

(** Sequencing, with stdpp's notation [x ← m; k]. *)
#[global] Instance result_ret : MRet result := fun A a => Done a.
#[global] Instance result_bind : MBind result := fun A B k m =>
  match m with
  | Done a => k a
  | Panic => Panic
  | OutOfFuel => OutOfFuel
  end.

(** ** Package [strings] of the Go standard library *)
Module strings.

(** [s[n:]] *)
Fixpoint sliceFrom (n : nat) (s : string) : string :=
  match n, s with
  | O, _ => s
  | S n', String _ s' => sliceFrom n' s'
  | S _, EmptyString => EmptyString
  end.

(** [s[:n]] *)
Fixpoint sliceTo (n : nat) (s : string) : string :=
  match n, s with
  | O, _ => EmptyString
  | S n', String c s' => String c (sliceTo n' s')
  | S _, EmptyString => EmptyString
  end.

Fixpoint HasPrefix (s prefix : string) {struct prefix} : bool :=
  match prefix, s with
  | EmptyString, _ => true
  | String p prefix', String c s' => Ascii.eqb c p && HasPrefix s' prefix'
  | String _ _, EmptyString => false
  end.

(** [len(s) >= len(suffix) && s[len(s)-len(suffix):] == suffix] *)
Definition HasSuffix (s suffix : string) : bool :=
  (String.length suffix <=? String.length s)
  && String.eqb (sliceFrom (String.length s - String.length suffix) s) suffix.

Definition TrimSuffix (s suffix : string) : string :=
  if HasSuffix s suffix
  then sliceTo (String.length s - String.length suffix) s
  else s.

(** Is the byte one of 'A'..'Z'? *)
Definition isUpper (c : ascii) : bool :=
  let n := nat_of_ascii c in (65 <=? n) && (n <=? 90).

Definition toLowerByte (c : ascii) : ascii :=
  if isUpper c then ascii_of_nat (nat_of_ascii c + 32) else c.

(** Is every byte of the string below [utf8.RuneSelf] (0x80)? *)
Fixpoint isASCII (s : string) : bool :=
  match s with
  | EmptyString => true
  | String c s' => (nat_of_ascii c <? 128) && isASCII s'
  end.

(** The second loop of [ToLower]: every 'A'..'Z' becomes 'a'..'z', other
    bytes are kept. *)
Fixpoint lowerASCII (s : string) : string :=
  match s with
  | EmptyString => EmptyString
  | String c s' => String (toLowerByte c) (lowerASCII s')
  end.

(** [strings.ToLower].  A string of ASCII bytes is lowered byte by byte (a
    string without capitals comes back as it is).  Any other string goes
    through [Map(unicode.ToLower, s)], which reads the case tables of
    package [unicode]: that function is the parameter [unicodeLower]. *)
Definition ToLower (unicodeLower : string -> string) (s : string) : string :=
  if isASCII s then lowerASCII s else unicodeLower s.

(** [strings.Split(s, sep)] for a separator of one byte: the pieces of [s]
    between the separators, in order; never the empty list. *)
Fixpoint Split (s : string) (sep : ascii) : list string :=
  match s with
  | EmptyString => [EmptyString]
  | String c s' =>
      if Ascii.eqb c sep then EmptyString :: Split s' sep
      else match Split s' sep with
           | w :: ws => String c w :: ws
           | [] => [String c EmptyString]
           end
  end.

(** [strings.Replace(s, old, new, -1)] for [old] of one byte. *)
Fixpoint Replace (s : string) (old : ascii) (new : string) : string :=
  match s with
  | EmptyString => EmptyString
  | String c s' =>
      if Ascii.eqb c old then new +:+ Replace s' old new
      else String c (Replace s' old new)
  end.

(** Does the byte occur in the string? *)
Fixpoint ContainsByte (s : string) (c : ascii) : bool :=
  match s with
  | EmptyString => false
  | String d s' => Ascii.eqb d c || ContainsByte s' c
  end.

End strings.

(** ** Package [path] of the Go standard library *)
Module path.
Import strings.

Definition slash : ascii := "/"%char.
Definition dot : ascii := "."%char.

(** [Clean] reads the path element by element (the pieces between
    slashes) and writes the elements it keeps to a buffer.  One step of that
    loop: [out] is the buffer written so far, as a stack of elements (last
    written first); [dotdot] is the number of elements of [out] that a ".."
    may not remove.  An empty element and "." are skipped; ".." removes the
    last element written if it may, is written itself if the path is not
    rooted, and is dropped at the root; any other element is written. *)
Definition cleanElem (rooted : bool) (st : list string * nat) (e : string)
  : list string * nat :=
  let '(out, dotdot) := st in
  if String.eqb e "" || String.eqb e "." then st
  else if String.eqb e ".." then
    if dotdot <? List.length out then (tl out, dotdot)
    else if negb rooted then (".." :: out, S (List.length out))
    else st
  else (e :: out, dotdot).

Definition cleanElems (rooted : bool) (es : list string) : list string :=
  rev (fst (fold_left (cleanElem rooted) es ([], 0))).

(** [path.Clean]: the shortest path equivalent to [p] by purely lexical
    processing. *)
Definition Clean (p : string) : string :=
  if String.eqb p "" then "."
  else
    let rooted := HasPrefix p "/" in
    let out := cleanElems rooted (Split p slash) in
    if rooted then "/" +:+ String.concat "/" out
    else match out with
         | [] => "."
         | _ => String.concat "/" out
         end.

(** [path.Join]: the non-empty elements joined by slashes, cleaned; the
    empty string when every element is empty. *)
Definition Join (elem : list string) : string :=
  match List.filter (fun e => negb (String.eqb e "")) elem with
  | [] => ""
  | es => Clean (String.concat "/" es)
  end.

(** The loop of [path.Ext], from the last byte backwards: [todo] is the
    part of the path not visited yet, reversed; [seen] the part visited. *)
Fixpoint extScan (todo seen : string) : string :=
  match todo with
  | EmptyString => ""
  | String c todo' =>
      if Ascii.eqb c slash then ""
      else if Ascii.eqb c dot then String c seen
      else extScan todo' (String c seen)
  end.

Definition Ext (p : string) : string := extScan (String.rev p) "".

(** Strip the trailing slashes of a reversed path. *)
Fixpoint stripSlashes (r : string) : string :=
  match r with
  | String c r' => if Ascii.eqb c slash then stripSlashes r' else r
  | EmptyString => EmptyString
  end.

(** The last element of a reversed path without trailing slash. *)
Fixpoint lastElem (r acc : string) : string :=
  match r with
  | EmptyString => acc
  | String c r' => if Ascii.eqb c slash then acc else lastElem r' (String c acc)
  end.

Definition Base (p : string) : string :=
  if String.eqb p "" then "."
  else
    let e := lastElem (stripSlashes (String.rev p)) "" in
    if String.eqb e "" then "/" else e.

(** Everything up to and including the last slash of a reversed path. *)
Fixpoint dirPart (r : string) : string :=
  match r with
  | EmptyString => EmptyString
  | String c r' => if Ascii.eqb c slash then String.rev r else dirPart r'
  end.

Definition Dir (p : string) : string := Clean (dirPart (String.rev p)).

End path.

(** ** Package [label] of bazel-gazelle *)
Module label.

Record Label : Type := mkLabel {
  Repo : string;
  Pkg : string;
  Name : string;
  Relative : bool
}.

#[global] Instance Label_eq_dec : EqDecision Label.
Proof. solve_decision. Defined.

Definition NoLabel : Label := mkLabel "" "" "" false.

Definition New (repo pkg name : string) : Label := mkLabel repo pkg name false.

Definition Equal (l other : Label) : bool :=
  String.eqb (Repo l) (Repo other) && String.eqb (Pkg l) (Pkg other)
  && String.eqb (Name l) (Name other) && Bool.eqb (Relative l) (Relative other).

(** The label made relative to a repository and a package. *)
Definition Rel (l : Label) (repo pkg : string) : Label :=
  if Relative l || negb (String.eqb (Repo l) repo) then l
  else if String.eqb (Pkg l) pkg then mkLabel "" "" (Name l) true
  else mkLabel "" (Pkg l) (Name l) false.

(** The label as it is written in a build file. *)
Definition String (l : Label) : string :=
  if Relative l then ":" +:+ Name l
  else
    let repo := if String.eqb (Repo l) "" then "" else "@" +:+ Repo l in
    if String.eqb (path.Base (Pkg l)) (Name l)
    then repo +:+ "//" +:+ Pkg l
    else repo +:+ "//" +:+ Pkg l +:+ ":" +:+ Name l.

End label.

(** ** Package [rule] of bazel-gazelle *)
Module rule.

(** The right-hand side of an attribute in a build file. *)
#[warnings="-register-all"] Inductive Expr : Type :=
| StringExpr (s : string)
| ListExpr (l : list Expr)
| OtherExpr.

Definition stringsExpr (l : list string) : Expr := ListExpr (StringExpr <$> l).

Record Rule : Type := mkRule {
  Kind : string;
  Name : string;
  attrs : gmap string Expr
}.

Definition NewRule (kind name : string) : Rule := mkRule kind name ∅.

Definition Attr (r : Rule) (key : string) : option Expr := attrs r !! key.

Definition SetAttr (r : Rule) (key : string) (v : Expr) : Rule :=
  mkRule (Kind r) (Name r) (<[key := v]> (attrs r)).

Definition DelAttr (r : Rule) (key : string) : Rule :=
  mkRule (Kind r) (Name r) (delete key (attrs r)).

(** The string elements of a list attribute; empty when the attribute is
    absent or is not a list. *)
Definition AttrStrings (r : Rule) (key : string) : list string :=
  match attrs r !! key with
  | Some (ListExpr l) =>
      omap (fun e => match e with StringExpr s => Some s | _ => None end) l
  | _ => []
  end.

(** How rules of a kind are matched and merged. *)
Record KindInfo : Type := mkKindInfo {
  MatchAny : bool;
  NonEmptyAttrs : gmap string bool;
  MergeableAttrs : gmap string bool;
  ResolveAttrs : gmap string bool
}.

(** A build file: its package and the rules declared in it. *)
Record File : Type := mkFile {
  Pkg : string;
  Rules : list Rule
}.

End rule.

(** ** Package [resolve] of bazel-gazelle *)
Module resolve.

Record ImportSpec : Type := mkImportSpec {
  Lang : string;
  Imp : string
}.

#[global] Instance ImportSpec_eq_dec : EqDecision ImportSpec.
Proof. solve_decision. Defined.

Record FindResult : Type := mkFindResult {
  Label : label.Label;
  Embeds : list label.Label
}.

Definition IsSelfImport (r : FindResult) (from : label.Label) : bool :=
  label.Equal from (Label r)
  || existsb (fun e => label.Equal from e) (Embeds r).

(** An indexed rule: its label, the import specifications its language
    returned for it, the labels it embeds, and the language that indexed
    it. *)
Record ruleRecord : Type := mkRuleRecord {
  rr_label : label.Label;
  rr_importedAs : list ImportSpec;
  rr_embedded : list label.Label;
  rr_lang : string
}.

Definition RuleIndex : Type := list ruleRecord.

(** The indexed rules of language [lang] importable as [imp], in index
    order: the entry of [imp] in the import map of the index, which lists a
    rule once under each of its import specifications. *)
Definition FindRulesByImport (ix : RuleIndex) (imp : ImportSpec) (lang : string)
  : list FindResult :=
  (fun m => mkFindResult (rr_label m) (rr_embedded m))
    <$> List.filter
          (fun m => bool_decide (imp ∈ rr_importedAs m)
                    && String.eqb (rr_lang m) lang)
          ix.

End resolve.

(** ** [gazelle/resolver.go] *)

(** The two sentinel errors of the file, and the error [resolveWithIndex]
    builds with [fmt.Errorf] for an ambiguous import, kept as the four
    values it formats. *)
Inductive error : Type :=
| skipImportError
| notFoundError
| ambiguousError (l1 l2 : label.Label) (imp : string) (from : label.Label).

#[global] Instance error_eq_dec : EqDecision error.
Proof. solve_decision. Defined.

(** What the code writes to the log: ["Import %v not found."],
    [log.Print(err)] and ["Jest config %v"]. *)
Inductive logEntry : Type :=
| LogImportNotFound (imp : string)
| LogError (e : error)
| LogJestConfig (e : error).

(** [unicodeLower] is the parameter of [strings.ToLower]. *)
Definition Imports (unicodeLower : string -> string) (r : rule.Rule) (f : rule.File)
  : list resolve.ImportSpec :=
  let rel := rule.Pkg f in
  let srcs := rule.AttrStrings r "srcs" in
  (fun src =>
     let withoutSuffix := strings.TrimSuffix src (path.Ext src) in
     resolve.mkImportSpec "js"
       (strings.ToLower unicodeLower (path.Join [rel; withoutSuffix])))
    <$> srcs.

Definition resolveWithIndex (ix : resolve.RuleIndex) (imp : string) (from : label.Label)
  : label.Label * option error :=
  let res := resolve.mkImportSpec "js" imp in
  let matches := resolve.FindRulesByImport ix res "js" in
  match matches with
  | [] => (label.NoLabel, Some notFoundError)
  | m0 :: m1 :: _ =>
      (label.NoLabel,
       Some (ambiguousError (resolve.Label m0) (resolve.Label m1) imp from))
  | [m0] =>
      if resolve.IsSelfImport m0 from then (label.NoLabel, Some skipImportError)
      else (resolve.Label m0, None)
  end.

(** The loop of [findJsConfig]; [pkgDir] is the loop variable. *)
Fixpoint findJsConfigFrom (fuel : nat) (configName : string)
    (ix : resolve.RuleIndex) (from : label.Label) (pkgDir : string)
  : result (label.Label * option error) :=
  match fuel with
  | O => OutOfFuel
  | S fuel' =>
      if String.eqb pkgDir ".." then Done (label.NoLabel, Some notFoundError)
      else
        let imp := path.Join [pkgDir; configName +:+ ".config"] in
        let '(l, err) := resolveWithIndex ix imp from in
        match err with
        | None => Done (l, None)
        | Some _ => findJsConfigFrom fuel' configName ix from (path.Join [pkgDir; ".."])
        end
  end.

Definition findJsConfig (fuel : nat) (configName : string)
    (ix : resolve.RuleIndex) (from : label.Label)
  : result (label.Label * option error) :=
  findJsConfigFrom fuel configName ix from (label.Pkg from).

Definition isNpmDependency (imp : string) : bool :=
  let isSourceDep :=
    strings.HasPrefix imp "./" || strings.HasPrefix imp "/"
    || strings.HasPrefix imp "../" || strings.HasPrefix imp "~/"
    || strings.HasPrefix imp "@/" || strings.HasPrefix imp "~~/" in
  negb isSourceDep.

(** The [~/] case of [normaliseImports]: the path under the directory of
    the nearest nuxt or vue config, or nothing when neither is found. *)
Definition normaliseAlias (fuel : nat) (imp : string)
    (ix : resolve.RuleIndex) (from : label.Label) : result (option string) :=
  '(l, err) ← findJsConfig fuel "nuxt" ix from;
  '(l, err, configFound) ←
    match err with
    | Some _ =>
        '(l, err) ← findJsConfig fuel "vue" ix from; Done (l, err, "vue")
    | None => Done (l, err, "nuxt")
    end;
  match err with
  | None =>
      let basePath :=
        path.Dir (label.String (label.Rel l (label.Repo from) (label.Pkg from))) in
      let basePath :=
        if String.eqb configFound "vue" then path.Join [basePath; "src"]
        else basePath in
      Done (Some (path.Join [basePath; imp]))
  | Some _ => Done None
  end.

Definition normaliseImports (fuel : nat) (imp : string)
    (ix : resolve.RuleIndex) (from : label.Label) : result string :=
  let pkgDir := label.Pkg from in
  if strings.HasPrefix imp "@/" then Done (strings.sliceFrom 2 imp)
  else if strings.HasPrefix imp "~~/" then Done (strings.sliceFrom 3 imp)
  else
    aliased ←
      (if strings.HasPrefix imp "~/" then normaliseAlias fuel imp ix from
       else Done None);
    match aliased with
    | Some p => Done p
    | None =>
        if strings.HasPrefix imp "../" then Done (path.Join [pkgDir; imp])
        else if strings.HasPrefix imp "./" then Done (path.Join [pkgDir; imp])
        else Done imp
    end.

(** The package name of an import taken for an npm dependency (the lines of
    [Resolve] between the split and the insertion into [depSet]); [s[1]]
    panics when the split has one element. *)
Definition npmPackage (imp : string) : result string :=
  let s := strings.Split imp path.slash in
  match s !! 0 with
  | None => Panic
  | Some imp =>
      if strings.HasPrefix imp "@" then
        match s !! 1 with
        | None => Panic
        | Some s1 => Done (imp +:+ "/" +:+ s1)
        end
      else Done imp
  end.

(** One iteration of the loop of [Resolve] over the imports, on the
    dependency set and the log.  [isNpm] is the test made on an import the
    index does not know; [Resolve] passes [isNpmDependency]. *)
Definition resolveImportWith (isNpm : string -> bool) (fuel : nat)
    (ix : resolve.RuleIndex) (from : label.Label)
    (st : gmap string bool * list logEntry) (imp : string)
  : result (gmap string bool * list logEntry) :=
  let '(depSet, log) := st in
  imp ← normaliseImports fuel imp ix from;
  let '(l, err) := resolveWithIndex ix imp from in
  match err with
  | Some skipImportError => Done (depSet, log)
  | Some notFoundError =>
      if isNpm imp then
        imp ← npmPackage imp;
        Done (<["@npm//" +:+ imp := true]> depSet, log)
      else Done (depSet, log ++ [LogImportNotFound imp])
  | Some e => Done (depSet, log ++ [LogError e])
  | None =>
      let l := label.Rel l (label.Repo from) (label.Pkg from) in
      Done (<[label.String l := true]> depSet, log)
  end.

Definition resolveImport := resolveImportWith isNpmDependency.

Fixpoint resolveImports (fuel : nat) (ix : resolve.RuleIndex) (from : label.Label)
    (st : gmap string bool * list logEntry) (imports : list string)
  : result (gmap string bool * list logEntry) :=
  match imports with
  | [] => Done st
  | imp :: imports' =>
      st' ← resolveImport fuel ix from st imp;
      resolveImports fuel ix from st' imports'
  end.

(** [sort.Strings]: ascending in the byte order of strings. *)
Definition sort_Strings (l : list string) : list string := merge_sort String.le l.

(** [Resolve]; [imports] is [importsRaw] after its type assertion to
    [[]string].  The code collects the keys of [depSet] in the order the
    map yields them, which Go leaves open, and sorts them; here they are
    taken in the order of [map_to_list] (see [sort_Strings_Permutation]). *)
Definition Resolve (fuel : nat) (ix : resolve.RuleIndex) (r : rule.Rule)
    (imports : list string) (from : label.Label) : result (rule.Rule * list logEntry) :=
  let r := rule.DelAttr r "deps" in
  '(depSet, log) ← resolveImports fuel ix from (∅, []) imports;
  let r :=
    if 0 <? size depSet then
      let deps := (map_to_list depSet).*1 in
      rule.SetAttr r "deps" (rule.stringsExpr (sort_Strings deps))
    else r in
  if String.eqb (rule.Kind r) "jest_node_test" then
    '(l, err) ← findJsConfig fuel "jest" ix from;
    match err with
    | Some e => Done (r, log ++ [LogJestConfig e])
    | None =>
        let l := label.Rel l (label.Repo from) (label.Pkg from) in
        Done (rule.SetAttr r "config" (rule.StringExpr (label.String l)), log)
    end
  else Done (r, log).

(** ** [gazelle/js.go] *)

(** The configuration of the extension for a directory, as [GenerateRules]
    reads it; [JsLibrary] is the kind name [js.JsLibrary.String()]. *)
Record JsConfig : Type := mkJsConfig {
  JsImportExtenstions : list string;
  GenerateTests : bool;
  JsLibrary : string
}.

Module language.

Record GenerateArgs : Type := mkGenerateArgs {
  Config : JsConfig;
  Dir : string;
  Rel : string;
  File : option rule.File;
  RegularFiles : list string;
  GenFiles : list string
}.

Record GenerateResult : Type := mkGenerateResult {
  Gen : list rule.Rule;
  Empty : list rule.Rule;
  Imports : list (list string)
}.

End language.

(** [filepath.Ext] is [path.Ext] on slash-separated paths. *)
Definition Kinds : gmap string rule.KindInfo :=
  list_to_map
    [("js_library",
      rule.mkKindInfo false (<["srcs" := true]> ∅) (<["srcs" := true]> ∅)
        (<["deps" := true]> ∅));
     ("jest_test",
      rule.mkKindInfo false (<["srcs" := true]> ∅) (<["srcs" := true]> ∅)
        (<["deps" := true]> (<["config" := true]> ∅)));
     ("js_import",
      rule.mkKindInfo false (<["srcs" := true]> ∅) (<["srcs" := true]> ∅)
        (<["deps" := true]> (<["config" := true]> ∅)));
     ("ts_project",
      rule.mkKindInfo false (<["srcs" := true]> ∅) (<["srcs" := true]> ∅)
        (<["deps" := true]> ∅))].

Definition trimExt (filename : string) : string :=
  let extension := path.Ext filename in
  "_" +:+ strings.Replace extension path.dot "".

Definition containsSuffix (suffixes : list string) (x : string) : bool :=
  existsb (fun suffix => strings.HasSuffix x suffix) suffixes.

(** [m[k]] on a Go [map[string]bool]: [false] for a missing key. *)
Definition mapGet (m : gmap string bool) (k : string) : bool := default false (m !! k).

Definition generateEmpty (f : option rule.File) (files : list string)
    (knownRuleKinds : gmap string bool) : list rule.Rule :=
  match f with
  | None => []
  | Some f =>
      let knownFiles := foldl (fun m f => <[f := true]> m) (∅ : gmap string bool) files in
      foldl
        (fun empty r =>
           if negb (mapGet knownRuleKinds (rule.Kind r)) then empty
           else
             let srcs := rule.AttrStrings r "srcs" in
             if (length srcs =? 0) && bool_decide (rule.Attr r "srcs" ≠ None)
             then empty
             else if existsb (fun src => mapGet knownFiles src) srcs then empty
             else empty ++ [rule.NewRule (rule.Kind r) (rule.Name r)])
        [] (rule.Rules f)
  end.

Section GenerateRules.

(** The file analysis of the extension: the raw imports of a source file
    of a directory. *)
Variable jsFileinfo : string -> string -> list string.

Definition publicVisibility : rule.Expr := rule.stringsExpr ["//visibility:public"].

(** The body of the loop over the files of the directory, on the rules,
    the imports and the two file lists built so far. *)
Definition generateFile (js : JsConfig) (dir : string)
    (st : list rule.Rule * list (list string) * list string * list string)
    (f : string)
  : list rule.Rule * list (list string) * list string * list string :=
  let '(rules, imports, jsFiles, jsImportFiles) := st in
  let base := path.Base f in
  let prefix := trimExt base in
  let base := strings.TrimSuffix base (path.Ext base) in
  let '(rules, imports) :=
    if containsSuffix (JsImportExtenstions js) f then
      let rule := rule.NewRule "js_import" (base +:+ prefix) in
      let rule := rule.SetAttr rule "srcs" (rule.stringsExpr [f]) in
      let rule := rule.SetAttr rule "visibility" publicVisibility in
      (rules ++ [rule], imports ++ [[]])
    else (rules, imports) in
  if (negb (strings.HasSuffix f ".vue") && negb (strings.HasSuffix f ".js")
      && negb (strings.HasSuffix f ".jsx") && negb (strings.HasSuffix f ".tsx")
      && negb (strings.HasSuffix f ".ts"))
     || strings.HasSuffix f "k6.js"
     || strings.HasSuffix f "e2e.test.js"
     || (negb (GenerateTests js) && strings.HasSuffix f ".test.js")
  then (rules, imports, jsFiles, jsImportFiles ++ [f])
  else
    let fileInfo := jsFileinfo dir f in
    let imports := imports ++ [fileInfo] in
    let jsFiles := jsFiles ++ [f] in
    let rule :=
      if strings.HasSuffix f ".test.js" then
        rule.SetAttr (rule.NewRule "jest_test" base) "srcs" (rule.stringsExpr [f])
      else if strings.HasSuffix f "test.ts" then
        rule.SetAttr (rule.NewRule "jest_test" base) "srcs" (rule.stringsExpr [f])
      else if strings.HasSuffix f ".ts" then
        rule.SetAttr
          (rule.SetAttr (rule.NewRule "ts_project" base) "srcs" (rule.stringsExpr [f]))
          "visibility" publicVisibility
      else if strings.HasSuffix f ".tsx" then
        rule.SetAttr
          (rule.SetAttr (rule.NewRule "ts_project" base) "srcs" (rule.stringsExpr [f]))
          "visibility" publicVisibility
      else
        rule.SetAttr
          (rule.SetAttr (rule.NewRule (JsLibrary js) base) "srcs" (rule.stringsExpr [f]))
          "visibility" publicVisibility in
    (rules ++ [rule], imports, jsFiles, jsImportFiles).

(** [GenerateRules]; [language.Config args] stands for [GetJsConfig(c)].
    The name [base] computed from [args.Rel] before the loop is overwritten
    in the loop and not read after it; it is left out. *)
Definition GenerateRules (args : language.GenerateArgs) : language.GenerateResult :=
  let js := language.Config args in
  let '(rules, imports, jsFiles, jsImportFiles) :=
    foldl (generateFile js (language.Dir args)) ([], [], [], [])
      (language.RegularFiles args ++ language.GenFiles args) in
  let empty :=
    generateEmpty (language.File args) jsFiles
      (<[JsLibrary js := true]> (<["jest_test" := true]> (<["ts_library" := true]> ∅))) in
  let empty :=
    if 0 <? length (JsImportExtenstions js) then
      empty ++ generateEmpty (language.File args) jsImportFiles (<["js_import" := true]> ∅)
    else empty in
  language.mkGenerateResult rules empty imports.

End GenerateRules.

(** ** Vocabulary of the properties *)


Definition noSlash (s : string) : Prop := strings.ContainsByte s path.slash = false.

(** A path element that [path.Clean] keeps as it is. *)
Definition realSeg (s : string) : Prop :=
  s ≠ "" ∧ s ≠ "." ∧ s ≠ ".." ∧ noSlash s.

(** The step of the upward search: [path.Join(pkgDir, "..")]. *)
Definition parentDir (dir : string) : string := path.Join [dir; ".."].

(** The clean path made of the given elements; "." for none. *)
Definition render (segs : list string) : string :=
  match segs with
  | [] => "."
  | _ => String.concat "/" segs
  end.

(** A clean path relative to the repository root: the empty string (the
    root package), or a path that [path.Clean] leaves unchanged, is not
    rooted and does not start with a ".." element. *)
Definition isCleanRel (p : string) : bool :=
  String.eqb p ""
  || (String.eqb (path.Clean p) p && negb (strings.HasPrefix p "/")
      && negb (String.eqb p "..") && negb (strings.HasPrefix p "../")).

(** The number of slash-separated elements of a path. *)
Definition pathDepth (p : string) : nat := length (strings.Split p path.slash).

(** The labels of the indexed rules: the keys of the label map of the
    index. *)
Definition indexedLabels (ix : resolve.RuleIndex) : list label.Label :=
  resolve.rr_label <$> ix.

(** [RuleIndex.AddRule] of bazel-gazelle for a rule of this language.  The
    record of the rule holds its label and the import specifications
    [Imports] returns for it ([Embeds] returns nothing).  A rule whose label
    is already in the label map of the index is reported ("multiple rules
    found with label") and dropped: the index stays as it is.  Any other
    rule is appended. *)
Definition AddRule (unicodeLower : string -> string) (ix : resolve.RuleIndex)
    (repoName : string) (r : rule.Rule) (f : rule.File) : resolve.RuleIndex :=
  let record :=
    resolve.mkRuleRecord (label.New repoName (rule.Pkg f) (rule.Name r))
      (Imports unicodeLower r f) [] "js" in
  if bool_decide (resolve.rr_label record ∈ indexedLabels ix) then ix
  else ix ++ [record].




(** An import on which the package-name derivation of [Resolve] indexes
    past the end of the split: its normal form is unknown to the index,
    starts with "@" and holds no slash. *)
Definition panicsOn (fuel : nat) (ix : resolve.RuleIndex) (from : label.Label)
    (raw : string) : Prop :=
  ∃ imp, normaliseImports fuel raw ix from = Done imp
         ∧ (resolveWithIndex ix imp from).2 = Some notFoundError
         ∧ strings.HasPrefix imp "@" = true
         ∧ strings.ContainsByte imp path.slash = false.

(** Every key of the map has value [true]. *)
Definition allTrue (m : gmap string bool) : Prop := ∀ k v, m !! k = Some v → v = true.

(** ** Sample inputs *)

(** The case mapping of the samples: the part of [Map(unicode.ToLower, s)]
    for text in ASCII and Latin-1, in UTF-8.  The capitals U+00C0..U+00DE
    (but the sign U+00D7) are the bytes 0xC3 0x80..0x9E (but 0x97): the second
    byte gets 0x20 added; a byte 'A'..'Z' gets 0x20 added; the other bytes
    are kept.  [afterC3] tells whether the byte before was 0xC3. *)
Definition latin1LowerByte (afterC3 : bool) (c : ascii) : ascii :=
  let n := nat_of_ascii c in
  if afterC3 && (128 <=? n) && (n <=? 158) && negb (n =? 151)
  then ascii_of_nat (n + 32)
  else strings.toLowerByte c.

Fixpoint latin1LowerFrom (afterC3 : bool) (s : string) : string :=
  match s with
  | EmptyString => EmptyString
  | String c s' =>
      String (latin1LowerByte afterC3 c) (latin1LowerFrom (nat_of_ascii c =? 195) s')
  end.

Definition latin1Lower (s : string) : string := latin1LowerFrom false s.

(** A repository with a jest configuration in package [a], indexed as
    [AddRule] does, and a test file three directories below it. *)
Definition sampleConfig : JsConfig := mkJsConfig [] true "js_library".

Definition sampleFileinfo (dir f : string) : list string := [].

Definition jestConfigRule : rule.Rule :=
  rule.SetAttr (rule.NewRule "js_library" "jest.config") "srcs"
    (rule.stringsExpr ["jest.config.js"]).

Definition sampleIx : resolve.RuleIndex :=
  AddRule latin1Lower [] "" jestConfigRule (rule.mkFile "a" [jestConfigRule]).

Definition sampleFrom : label.Label := label.New "" "a/b/c/d" "foo.test".

Definition sampleTestArgs : language.GenerateArgs :=
  language.mkGenerateArgs sampleConfig "/ws/a/b/c/d" "a/b/c/d" None ["foo.test.js"] [].

Definition sampleTestRule : rule.Rule :=
  rule.SetAttr (rule.NewRule "jest_test" "foo.test") "srcs"
    (rule.stringsExpr ["foo.test.js"]).

(** A directory that now holds [new.ts] only; its build file still declares
    a typed module for [old.ts], a library for [gone.js] and a library
    whose source is still there. *)
Definition staleFile : rule.File :=
  rule.mkFile "a"
    [rule.SetAttr (rule.NewRule "ts_project" "old") "srcs" (rule.stringsExpr ["old.ts"]);
     rule.SetAttr (rule.NewRule "js_library" "gone") "srcs" (rule.stringsExpr ["gone.js"]);
     rule.SetAttr (rule.NewRule "ts_project" "new") "srcs" (rule.stringsExpr ["new.ts"])].

Definition staleArgs : language.GenerateArgs :=
  language.mkGenerateArgs sampleConfig "/ws/a" "a" (Some staleFile) ["new.ts"] [].

(** Two rules importable under the same name. *)
Definition utilRule (name : string) : rule.Rule :=
  rule.SetAttr (rule.NewRule "js_library" name) "srcs" (rule.stringsExpr ["util.js"]).

Definition ambiguousIx : resolve.RuleIndex :=
  AddRule latin1Lower
    (AddRule latin1Lower [] "" (utilRule "util") (rule.mkFile "lib" []))
    "" (utilRule "util2") (rule.mkFile "lib" []).




(** ** The other functions of the two files *)

(** [Name]: the name of the language. *)
Definition Name : string := "js".

(** [Embeds]: the extension has no embedding; the result is always empty. *)
Definition Embeds (r : rule.Rule) (from : label.Label) : list label.Label := [].

(** The loop of [findVueConfig]; [pkgDir] is the loop variable. *)
Fixpoint findVueConfigFrom (fuel : nat) (ix : resolve.RuleIndex)
    (from : label.Label) (pkgDir : string)
  : result (label.Label * option error) :=
  match fuel with
  | O => OutOfFuel
  | S fuel' =>
      if String.eqb pkgDir ".." then Done (label.NoLabel, Some notFoundError)
      else
        let imp := path.Join [pkgDir; "vue.config"] in
        let '(l, err) := resolveWithIndex ix imp from in
        match err with
        | None => Done (l, None)
        | Some _ => findVueConfigFrom fuel' ix from (path.Join [pkgDir; ".."])
        end
  end.

Definition findVueConfig (fuel : nat) (ix : resolve.RuleIndex) (from : label.Label)
  : result (label.Label * option error) :=
  findVueConfigFrom fuel ix from (label.Pkg from).

(** [rule.LoadInfo] of bazel-gazelle: a .bzl file and the symbols loaded
    from it. *)
Record LoadInfo : Type := mkLoadInfo {
  LoadName : string;
  Symbols : list string
}.

Definition Loads : list LoadInfo :=
  [mkLoadInfo "@benchsci_test_tools_js//:defs.bzl"
     ["js_library"; "ts_project"; "jest_test"; "js_import"]].

(** ** Vocabulary of the further properties *)

(** The files [GenerateRules] keeps away from the source rules (the test
    of the loop that ends in [continue]): files of no known source suffix,
    load tests, end-to-end tests, and unit tests when tests are off. *)
Definition importOnly (js : JsConfig) (f : string) : bool :=
  (negb (strings.HasSuffix f ".vue") && negb (strings.HasSuffix f ".js")
   && negb (strings.HasSuffix f ".jsx") && negb (strings.HasSuffix f ".tsx")
   && negb (strings.HasSuffix f ".ts"))
  || strings.HasSuffix f "k6.js"
  || strings.HasSuffix f "e2e.test.js"
  || (negb (GenerateTests js) && strings.HasSuffix f ".test.js").

(** A declared rule that [generateEmpty] takes for stale: its kind is one
    of the known kinds, its [srcs] is absent or a list with a string in it,
    and none of the strings is a file of the directory. *)
Definition isStale (knownRuleKinds : gmap string bool) (files : list string)
    (r : rule.Rule) : Prop :=
  mapGet knownRuleKinds (rule.Kind r) = true
  ∧ (rule.Attr r "srcs" = None ∨ rule.AttrStrings r "srcs" ≠ [])
  ∧ Forall (λ src, src ∉ files) (rule.AttrStrings r "srcs").

#[global] Instance isStale_dec knownRuleKinds files r :
  Decision (isStale knownRuleKinds files r).
Proof. unfold isStale. apply _. Defined.

(** The kinds [GenerateRules] passes to the first call of [generateEmpty]. *)
Definition sourceKinds (js : JsConfig) : gmap string bool :=
  <[JsLibrary js := true]> (<["jest_test" := true]> (<["ts_library" := true]> ∅)).

(** The directories of the upward search, from [dir]. *)
Definition ancestor (k : nat) (dir : string) : string := Nat.iter k parentDir dir.

(** [r], with the imports [imps], is what [GenerateRules] makes of the file
    [f]: an import-only rule without imports for a file of an import
    extension, or a source rule with the imports of [f] for a file that is
    not kept away from the source rules. *)
Definition generatedFor (jsFileinfo : string -> string -> list string)
    (js : JsConfig) (dir f : string) (r : rule.Rule) (imps : list string) : Prop :=
  rule.AttrStrings r "srcs" = [f]
  ∧ ((rule.Kind r = "js_import" ∧ imps = []
      ∧ containsSuffix (JsImportExtenstions js) f = true
      ∧ rule.Name r
        = strings.TrimSuffix (path.Base f) (path.Ext (path.Base f)) +:+ trimExt (path.Base f))
     ∨ (importOnly js f = false ∧ imps = jsFileinfo dir f
        ∧ (rule.Kind r = "jest_test" ∨ rule.Kind r = "ts_project"
           ∨ rule.Kind r = JsLibrary js)
        ∧ rule.Name r = strings.TrimSuffix (path.Base f) (path.Ext (path.Base f)))).

(** * Properties *)

Import strings path.

(** ** Facts about [strings] *)
Section StringFacts.

Lemma app_String c (p r : string) : String c p +:+ r = String c (p +:+ r).
Proof. reflexivity. Qed.

Lemma HasPrefix_app p r : HasPrefix (p +:+ r) p = true.
Proof.
  induction p as [|c p IH]; [done|].
  rewrite app_String. simpl. by rewrite Ascii.eqb_refl.
Qed.

Lemma HasPrefix_slash c t : HasPrefix (String c t) "/" = Ascii.eqb c slash.
Proof. simpl. apply andb_true_r. Qed.

Lemma Split_nonempty s c : Split s c ≠ [].
Proof.
  destruct s as [|d s]; simpl; [done|].
  destruct (Ascii.eqb d c); [done|]. by destruct (Split s c).
Qed.

Lemma Split_head s c : ∃ seg0 rest, Split s c = seg0 :: rest.
Proof. pose proof (Split_nonempty s c). destruct (Split s c); naive_solver. Qed.

Lemma Split_noSlash s : noSlash s → Split s slash = [s].
Proof.
  unfold noSlash. induction s as [|c s IH]; simpl; [done|].
  intros [Hc Hs]%orb_false_iff. by rewrite Hc, IH.
Qed.

Lemma Split_app_slash a b :
  noSlash a → Split (a +:+ String slash b) slash = a :: Split b slash.
Proof.
  unfold noSlash. induction a as [|c a IH]; cbn [ContainsByte].
  - intros _. by change ("" +:+ String slash b) with (String slash b).
  - intros [Hc Hs]%orb_false_iff. rewrite app_String. cbn [Split].
    by rewrite Hc, IH.
Qed.

Lemma Split_Forall_noSlash s : Forall noSlash (Split s slash).
Proof.
  induction s as [|c s IH]; simpl; [by constructor|].
  destruct (Ascii.eqb c slash) eqn:Hc; [by constructor|].
  destruct (Split s slash) as [|w ws]; constructor.
  - unfold noSlash. simpl. by rewrite Hc.
  - constructor.
  - inversion IH; subst. unfold noSlash in *. simpl. by rewrite Hc.
  - by inversion IH.
Qed.

Lemma Split_slash_two s :
  ContainsByte s slash = true → ∃ a b l, Split s slash = a :: b :: l.
Proof.
  induction s as [|c s IH]; simpl; [done|].
  destruct (Ascii.eqb c slash) eqn:Hc; simpl.
  - intros _. destruct (Split_head s slash) as (b & l & ->). eauto.
  - intros Hs. destruct (IH Hs) as (a & b & l & ->). eauto.
Qed.

Lemma Split_head_at s seg0 rest :
  Split s slash = seg0 :: rest → HasPrefix seg0 "@" = HasPrefix s "@".
Proof.
  destruct s as [|c s]; simpl.
  - by intros [= <- _].
  - destruct (Ascii.eqb c slash) eqn:Hc.
    + intros [= <- _]. apply Ascii.eqb_eq in Hc as ->. done.
    + destruct (Split s slash); by intros [= <- _].
Qed.

Lemma concat_cons2 (a b : string) l :
  String.concat "/" (a :: b :: l) = a +:+ String slash (String.concat "/" (b :: l)).
Proof. reflexivity. Qed.

Lemma concat_snoc l x :
  l ≠ [] → String.concat "/" (l ++ [x]) = String.concat "/" l +:+ String slash x.
Proof.
  induction l as [|a [|b l] IH]; intros Hne; [done|done|].
  change ((a :: b :: l) ++ [x]) with (a :: b :: (l ++ [x])).
  rewrite !concat_cons2.
  change (b :: l ++ [x]) with ((b :: l) ++ [x]). rewrite IH by done.
  generalize (String.concat "/" (b :: l)). intros t.
  induction a as [|c a IHa]; [done|]. rewrite !app_String. by rewrite IHa.
Qed.

Lemma Split_concat segs :
  segs ≠ [] → Forall noSlash segs → Split (String.concat "/" segs) slash = segs.
Proof.
  induction segs as [|a [|b l] IH]; intros Hne Hall; [done|..].
  - simpl. apply Split_noSlash. by inversion Hall.
  - rewrite concat_cons2. inversion Hall; subst.
    rewrite Split_app_slash by done. f_equal. by apply IH.
Qed.










End StringFacts.

(** ** The case mapping of the samples *)
Section SampleLower.







End SampleLower.

(** ** Facts about [label] *)
Section LabelFacts.

Lemma Equal_refl l : label.Equal l l = true.
Proof.
  unfold label.Equal. rewrite !String.eqb_refl. by destruct (label.Relative l).
Qed.

End LabelFacts.

(** ** Facts about [path]: the parent of a clean relative path *)
Section PathFacts.

(** The model on inputs from the documentation and tests of Go's [path]. *)
Example Clean_examples :
  Clean <$> [""; "abc"; "a/b/c"; "."; ".."; "../.."; "../../abc"; "/abc"; "/";
             "abc/"; "./"; "../"; "/abc/"; "abc//def//ghi"; "//abc"; "abc/./def";
             "abc/."; "abc/def/ghi/../jkl"; "abc/def/../.."; "/abc/def/../..";
             "abc/def/../../.."; "/abc/def/../../..";
             "abc/def/../../../ghi/jkl/../../../mno"; "abc/./../def";
             "abc/../../././../def"; "/.."; "/../a"]
  = ["."; "abc"; "a/b/c"; "."; ".."; "../.."; "../../abc"; "/abc"; "/";
     "abc"; "."; ".."; "/abc"; "abc/def/ghi"; "/abc"; "abc/def";
     "abc"; "abc/def/jkl"; "."; "/";
     ".."; "/";
     "../../mno"; "def";
     "../../def"; "/"; "/a"].
Proof. reflexivity. Qed.

Example Join_examples :
  Join <$> [["a"; "b"]; ["a"; ""]; [""; ""]; [""; ".."]; ["."; ".."]; ["a"; ".."];
            ["a/b"; "../c"]; ["/"; ".."]; [""; "jest.config"]; ["a/b"; "./c.js"]]
  = ["a/b"; "a"; ""; ".."; ".."; "."; "a/c"; "/"; "jest.config"; "a/b/c.js"].
Proof. reflexivity. Qed.

Example Ext_Base_Dir_examples :
  Ext <$> ["a.b"; "a.b/c"; "a"; "a.b.c"; ".a"; "a."; ""] = [".b"; ""; ""; ".c"; ".a"; "."; ""]
  ∧ Base <$> [""; "/"; "a"; "a/b"; "a/b/"; "."] = ["."; "/"; "a"; "b"; "b"; "."]
  ∧ Dir <$> [""; "/"; "a"; "a/b"; "a/b/"; "/a"; "//a/b:c"] = ["."; "/"; "."; "a"; "a/b"; "/"; "/a"].
Proof. split_and!; reflexivity. Qed.

Lemma cleanElem_real rooted out dd e :
  realSeg e → cleanElem rooted (out, dd) e = (e :: out, dd).
Proof.
  intros (H1 & H2 & H3 & _). unfold cleanElem.
  apply String.eqb_neq in H1, H2, H3. by rewrite H1, H2, H3.
Qed.

Lemma fold_cleanElem_real rooted segs out dd :
  Forall realSeg segs →
  fold_left (cleanElem rooted) segs (out, dd) = (rev segs ++ out, dd).
Proof.
  revert out. induction segs as [|s segs IH]; intros out Hall; [done|].
  inversion Hall; subst. cbn [fold_left]. rewrite cleanElem_real by done.
  rewrite IH by done. cbn [rev]. by rewrite <- app_assoc.
Qed.

Lemma realSeg_noSlash s : realSeg s → noSlash s.
Proof. by intros (_ & _ & _ & H). Qed.

Lemma concat_real_head segs :
  segs ≠ [] → Forall realSeg segs →
  ∃ c t, String.concat "/" segs = String c t ∧ Ascii.eqb c slash = false.
Proof.
  destruct segs as [|a l]; [done|]. intros _ Hall. inversion Hall as [|? ? Ha Hl]; subst.
  destruct Ha as (Hne & _ & _ & Hs). destruct a as [|c a]; [done|].
  unfold noSlash in Hs. simpl in Hs. apply orb_false_iff in Hs as [Hc _].
  destruct l as [|b l].
  - by exists c, a.
  - rewrite concat_cons2, app_String. eauto.
Qed.

Lemma Clean_unrooted p :
  p ≠ "" → HasPrefix p "/" = false →
  Clean p = match cleanElems false (Split p slash) with
            | [] => "."
            | out => String.concat "/" out
            end.
Proof.
  intros Hne%String.eqb_neq Hr. unfold Clean. rewrite Hne, Hr.
  by destruct (cleanElems false (Split p slash)).
Qed.

Lemma parentDir_snoc segs s :
  Forall realSeg (segs ++ [s]) →
  parentDir (String.concat "/" (segs ++ [s])) = render segs.
Proof.
  intros Hall.
  assert (Hne : segs ++ [s] ≠ []) by (by destruct segs).
  destruct (concat_real_head _ Hne Hall) as (c & t & Hp & Hc).
  unfold parentDir, Join.
  set (p := String.concat "/" (segs ++ [s])) in *.
  assert (Hflt : List.filter (λ e, negb (String.eqb e "")) [p; ".."] = [p; ".."]).
  { simpl. by rewrite Hp. }
  rewrite Hflt. rewrite concat_cons2. change (String.concat "/" [".."]) with "..".
  unfold p. rewrite <- concat_snoc by done.
  rewrite Clean_unrooted.
  2: { rewrite concat_snoc by done. fold p. by rewrite Hp. }
  2: { rewrite concat_snoc by done. fold p. by rewrite Hp, app_String, HasPrefix_slash. }
  rewrite Split_concat.
  2: { by destruct segs. }
  2: { apply Forall_app; split.
       - eapply Forall_impl; [exact Hall|]. apply realSeg_noSlash.
       - by repeat constructor. }
  unfold cleanElems. rewrite fold_left_app, fold_cleanElem_real by done.
  rewrite rev_app_distr. simpl. rewrite app_nil_r, rev_involutive.
  by destruct segs.
Qed.

Lemma parent_chain segs :
  Forall realSeg segs → Nat.iter (S (length segs)) parentDir (render segs) = "..".
Proof.
  induction segs as [|s segs IH] using rev_ind; intros Hall.
  - reflexivity.
  - rewrite length_app, Nat.add_comm. cbn [length Nat.add].
    rewrite Nat.iter_succ_r.
    replace (render (segs ++ [s])) with (String.concat "/" (segs ++ [s]))
      by (by destruct segs).
    rewrite parentDir_snoc by done. apply IH.
    by apply Forall_app in Hall as [? _].
Qed.

Lemma fold_cleanElem_inv es rs dd :
  Forall noSlash es → Forall realSeg rs →
  ∃ rs' dd',
    fold_left (cleanElem false) es (rs ++ replicate dd "..", dd)
    = (rs' ++ replicate dd' "..", dd')
    ∧ Forall realSeg rs'.
Proof.
  revert rs dd. induction es as [|e es IH]; intros rs dd Hes Hrs.
  - by exists rs, dd.
  - inversion Hes as [|? ? He Hes']; subst. cbn [fold_left].
    unfold cleanElem at 2.
    destruct (String.eqb e "" || String.eqb e ".") eqn:H1; [by apply IH|].
    apply orb_false_iff in H1 as [H1 H2].
    destruct (String.eqb e "..") eqn:H3.
    + destruct rs as [|x rs].
      * cbn [app]. rewrite length_replicate, Nat.ltb_irrefl. cbn [negb].
        apply (IH [] (S dd)); [done|constructor].
      * cbn [app length tl].
        replace (dd <? S (length (rs ++ replicate dd "..")))%nat with true.
        2: { symmetry. apply Nat.ltb_lt. rewrite length_app, length_replicate. lia. }
        apply IH; [done|]. by inversion Hrs.
    + apply (IH (e :: rs) dd); [done|]. constructor; [|done].
      apply String.eqb_neq in H1, H2, H3. done.
Qed.

Lemma rev_replicate {A} n (x : A) : rev (replicate n x) = replicate n x.
Proof.
  induction n as [|n IH]; [done|]. cbn [replicate rev]. rewrite IH.
  clear IH. induction n as [|n IH]; [done|]. cbn [replicate app]. by rewrite IH.
Qed.

Lemma isCleanRel_inv p :
  isCleanRel p = true → p = "" ∨ ∃ segs, Forall realSeg segs ∧ p = render segs.
Proof.
  unfold isCleanRel. intros [Hp|Hp]%orb_true_iff.
  { left. by apply String.eqb_eq. }
  destruct (decide (p = "")) as [|Hne]; [by left|]. right.
  apply andb_true_iff in Hp as [Hp H4]. apply andb_true_iff in Hp as [Hp H3].
  apply andb_true_iff in Hp as [H1 H2].
  apply String.eqb_eq in H1. apply negb_true_iff in H2, H3, H4.
  rewrite Clean_unrooted in H1 by done.
  destruct (fold_cleanElem_inv (Split p slash) [] 0) as (rs & dd & Hf & Hrs);
    [apply Split_Forall_noSlash|constructor|].
  unfold cleanElems in H1. cbn [app replicate] in Hf. rewrite Hf in H1.
  cbn [fst] in H1. rewrite rev_app_distr, rev_replicate in H1.
  destruct dd as [|dd].
  - exists (rev rs). split; [by apply Forall_rev|].
    cbn [replicate app] in H1. rewrite <- H1. unfold render. by destruct (rev rs).
  - exfalso. cbn [replicate app] in H1.
    destruct (replicate dd ".." ++ rev rs) as [|b l].
    + rewrite <- H1 in H3. done.
    + rewrite concat_cons2 in H1. rewrite <- H1 in H4. done.
Qed.

Lemma pathDepth_render segs :
  Forall realSeg segs → segs ≠ [] → pathDepth (render segs) = length segs.
Proof.
  intros Hall Hne. unfold pathDepth.
  replace (render segs) with (String.concat "/" segs) by (by destruct segs).
  rewrite Split_concat; [done..|]. eapply Forall_impl; [exact Hall|]. apply realSeg_noSlash.
Qed.

Lemma isCleanRel_reaches_sentinel p :
  isCleanRel p = true →
  ∃ n, n ≤ S (pathDepth p) ∧ Nat.iter n parentDir p = "..".
Proof.
  intros [->|(segs & Hall & ->)]%isCleanRel_inv.
  - exists 1. split; [unfold pathDepth; simpl; lia|reflexivity].
  - exists (S (length segs)). split; [|by apply parent_chain].
    destruct segs as [|a l]; [unfold pathDepth; simpl; lia|].
    rewrite pathDepth_render by done. done.
Qed.

End PathFacts.

(** ** The upward search of [findJsConfig] *)
Section ConfigLocator.

Variables (configName : string) (ix : resolve.RuleIndex) (from : label.Label).

Lemma resolveWithIndex_err imp l e :
  resolveWithIndex ix imp from = (l, Some e) → l = label.NoLabel.
Proof.
  unfold resolveWithIndex.
  destruct (resolve.FindRulesByImport _ _ _) as [|m0 [|m1 ms]]; [congruence| |congruence].
  destruct (resolve.IsSelfImport m0 from); congruence.
Qed.

(** The search returns as soon as the fuel exceeds the number of steps to the
    sentinel; what it returns is a match or the not-found error. *)
Lemma findJsConfigFrom_reaches n : ∀ dir fuel,
  Nat.iter n parentDir dir = ".." → n < fuel →
  ∃ l err, findJsConfigFrom fuel configName ix from dir = Done (l, err)
           ∧ (err = None ∨ (l = label.NoLabel ∧ err = Some notFoundError)).
Proof.
  induction n as [|n IH]; intros dir fuel Hn Hf.
  - simpl in Hn. subst dir. destruct fuel as [|fuel]; [lia|]. simpl. eauto 10.
  - destruct fuel as [|fuel]; [lia|]. cbn [findJsConfigFrom].
    destruct (String.eqb dir ".."); [eauto 10|].
    destruct (resolveWithIndex ix _ from) as [l [e|]]; [|eauto 10].
    fold (parentDir dir). apply IH; [|lia]. by rewrite <- Nat.iter_succ_r.
Qed.

(** With no match on the way up, the search returns the not-found error. *)
Lemma findJsConfigFrom_not_found n : ∀ dir fuel,
  Nat.iter n parentDir dir = ".." → n < fuel →
  (∀ k, (resolveWithIndex ix
           (Join [Nat.iter k parentDir dir; configName +:+ ".config"]) from).2 ≠ None) →
  findJsConfigFrom fuel configName ix from dir = Done (label.NoLabel, Some notFoundError).
Proof.
  induction n as [|n IH]; intros dir fuel Hn Hf Hno.
  - simpl in Hn. subst dir. destruct fuel as [|fuel]; [lia|]. done.
  - destruct fuel as [|fuel]; [lia|]. cbn [findJsConfigFrom].
    destruct (String.eqb dir ".."); [done|].
    pose proof (Hno 0) as H0. cbn [Nat.iter] in H0.
    destruct (resolveWithIndex ix _ from) as [l [e|]]; [|done].
    fold (parentDir dir). apply IH; [by rewrite <- Nat.iter_succ_r|lia|].
    intros k. rewrite <- Nat.iter_succ_r. apply Hno.
Qed.

Lemma findJsConfig_Done fuel :
  isCleanRel (label.Pkg from) = true →
  pathDepth (label.Pkg from) + 2 ≤ fuel →
  ∃ l err, findJsConfig fuel configName ix from = Done (l, err)
           ∧ (err = None ∨ (l = label.NoLabel ∧ err = Some notFoundError)).
Proof.
  intros (n & Hn & Hiter)%isCleanRel_reaches_sentinel Hfuel.
  apply (findJsConfigFrom_reaches n); [done|lia].
Qed.

End ConfigLocator.

Lemma Resolve_after_imports fuel ix r imports from depSet log :
  resolveImports fuel ix from (∅, []) imports = Done (depSet, log) →
  Resolve fuel ix r imports from =
    let r1 := rule.DelAttr r "deps" in
    let r2 :=
      if 0 <? size depSet then
        rule.SetAttr r1 "deps" (rule.stringsExpr (sort_Strings (map_to_list depSet).*1))
      else r1 in
    if String.eqb (rule.Kind r) "jest_node_test" then
      '(l, err) ← findJsConfig fuel "jest" ix from;
      match err with
      | Some e => Done (r2, log ++ [LogJestConfig e])
      | None =>
          Done (rule.SetAttr r2 "config"
                  (rule.StringExpr
                     (label.String (label.Rel l (label.Repo from) (label.Pkg from)))),
                log)
      end
    else Done (r2, log).
Proof.
  intros H. unfold Resolve. rewrite H. cbn [mbind result_bind].
  by destruct (0 <? size depSet).
Qed.

(** ** The loop of [Resolve] over the imports *)
Section ImportLoop.

Variables (fuel : nat) (ix : resolve.RuleIndex) (from : label.Label).

Lemma resolveImports_app st l1 l2 :
  resolveImports fuel ix from st (l1 ++ l2)
  = st' ← resolveImports fuel ix from st l1; resolveImports fuel ix from st' l2.
Proof.
  revert st. induction l1 as [|raw l1 IH]; intros st; [done|].
  cbn [app resolveImports].
  destruct (resolveImport fuel ix from st raw) as [st'| |]; [|done..].
  cbn [mbind result_bind]. apply IH.
Qed.

Lemma normaliseAlias_Done imp :
  isCleanRel (label.Pkg from) = true →
  pathDepth (label.Pkg from) + 2 ≤ fuel →
  ∃ o, normaliseAlias fuel imp ix from = Done o.
Proof.
  intros Hc Hf. unfold normaliseAlias.
  destruct (findJsConfig_Done "nuxt" ix from fuel Hc Hf) as (l & err & -> & _).
  cbn [mbind result_bind].
  destruct err as [e|]; cbn [mbind result_bind]; [|eauto].
  destruct (findJsConfig_Done "vue" ix from fuel Hc Hf) as (l' & err' & -> & _).
  cbn [mbind result_bind]. destruct err'; eauto.
Qed.

Lemma normaliseImports_Done raw :
  isCleanRel (label.Pkg from) = true →
  pathDepth (label.Pkg from) + 2 ≤ fuel →
  ∃ imp, normaliseImports fuel raw ix from = Done imp.
Proof.
  intros Hc Hf. unfold normaliseImports.
  destruct (HasPrefix raw "@/"); [eauto|].
  destruct (HasPrefix raw "~~/"); [eauto|].
  destruct (HasPrefix raw "~/").
  - destruct (normaliseAlias_Done raw Hc Hf) as (o & ->). cbn [mbind result_bind].
    destruct o; [eauto|].
    destruct (HasPrefix raw "../"); [eauto|]. destruct (HasPrefix raw "./"); eauto.
  - cbn [mbind result_bind].
    destruct (HasPrefix raw "../"); [eauto|]. destruct (HasPrefix raw "./"); eauto.
Qed.

Lemma npmPackage_Panic imp :
  npmPackage imp = Panic ↔ HasPrefix imp "@" = true ∧ ContainsByte imp slash = false.
Proof.
  unfold npmPackage.
  destruct (Split_head imp slash) as (seg0 & rest & Hs).
  rewrite Hs. cbn [lookup list_lookup]. rewrite (Split_head_at _ _ _ Hs).
  destruct (HasPrefix imp "@") eqn:Hat.
  - destruct (ContainsByte imp slash) eqn:Hsl.
    + destruct (Split_slash_two _ Hsl) as (a & b & l & Hs').
      rewrite Hs' in Hs. injection Hs as <- <-. cbn.
      split; [done|]. by intros [_ ?].
    + rewrite (Split_noSlash imp Hsl) in Hs. injection Hs as <- <-. by cbn.
  - split; [done|]. by intros [? _].
Qed.

Lemma npmPackage_not_OutOfFuel imp : npmPackage imp ≠ OutOfFuel.
Proof.
  unfold npmPackage. destruct (Split imp slash !! 0); [|done].
  destruct (HasPrefix s "@"); [|done]. by destruct (Split imp slash !! 1).
Qed.

Lemma at_noSlash_isNpm imp :
  HasPrefix imp "@" = true → ContainsByte imp slash = false →
  isNpmDependency imp = true.
Proof.
  destruct imp as [|c imp]; [done|]. simpl.
  rewrite andb_true_r. intros ->%Ascii.eqb_eq. simpl.
  destruct imp as [|d imp]; [done|]. simpl.
  intros [Hd _]%orb_false_iff. unfold isNpmDependency. simpl.
  fold slash. by rewrite Hd.
Qed.

Lemma panicsOn_iff raw imp :
  normaliseImports fuel raw ix from = Done imp →
  panicsOn fuel ix from raw ↔
    (resolveWithIndex ix imp from).2 = Some notFoundError
    ∧ HasPrefix imp "@" = true ∧ ContainsByte imp slash = false.
Proof.
  intros Hn. unfold panicsOn. rewrite Hn. split.
  - by intros (imp0 & [= <-] & H).
  - intros H. by exists imp.
Qed.

(** An iteration panics exactly on the imports of [panicsOn]; on any other
    import it returns, when the upward searches have enough fuel. *)
Lemma resolveImport_cases st raw :
  isCleanRel (label.Pkg from) = true →
  pathDepth (label.Pkg from) + 2 ≤ fuel →
  (panicsOn fuel ix from raw ∧ resolveImport fuel ix from st raw = Panic)
  ∨ (¬ panicsOn fuel ix from raw ∧ ∃ st', resolveImport fuel ix from st raw = Done st').
Proof.
  intros Hc Hf. destruct (normaliseImports_Done raw Hc Hf) as (imp & Hn).
  rewrite (panicsOn_iff raw imp Hn).
  unfold resolveImport, resolveImportWith. destruct st as [depSet log].
  rewrite Hn. cbn [mbind result_bind].
  destruct (resolveWithIndex ix imp from) as [l err] eqn:Hr. cbn [snd].
  destruct err as [[| |l1 l2 i f]|].
  - right. split; [|eauto]. by intros [? _].
  - destruct (npmPackage imp) as [name| |] eqn:Hp.
    + right. split.
      * intros (_ & Hat & Hsl).
        assert (npmPackage imp = Panic) by (by apply npmPackage_Panic). congruence.
      * destruct (isNpmDependency imp); cbn [mbind result_bind]; eauto.
    + apply npmPackage_Panic in Hp as [Hat Hsl]. left. split; [done|].
      by rewrite (at_noSlash_isNpm _ Hat Hsl).
    + by apply npmPackage_not_OutOfFuel in Hp.
  - right. split; [|eauto]. by intros [? _].
  - right. split; [|eauto]. by intros [? _].
Qed.

Lemma resolveImports_total st imports :
  isCleanRel (label.Pkg from) = true →
  pathDepth (label.Pkg from) + 2 ≤ fuel →
  ((∃ raw, raw ∈ imports ∧ panicsOn fuel ix from raw)
   ∧ resolveImports fuel ix from st imports = Panic)
  ∨ ((∀ raw, raw ∈ imports → ¬ panicsOn fuel ix from raw)
     ∧ ∃ st', resolveImports fuel ix from st imports = Done st').
Proof.
  intros Hc Hf. revert st. induction imports as [|raw imports IH]; intros st.
  - right. split; [|by eexists]. by intros raw ?%elem_of_nil.
  - cbn [resolveImports].
    destruct (resolveImport_cases st raw Hc Hf) as [[Hbad ->]|[Hok (st' & ->)]].
    + left. split; [|done]. exists raw. split; [left|done].
    + cbn [mbind result_bind].
      destruct (IH st') as [[(raw' & Hin & Hbad) ->]|[Hall (st'' & ->)]].
      * left. split; [|done]. exists raw'. split; [by right|done].
      * right. split; [|eauto]. intros raw' [->|Hin]%elem_of_cons; auto.
Qed.

(** What an iteration does to a state is what it does to the empty state,
    added to that state: one key with value [true], or nothing. *)
Lemma resolveImport_state depSet log raw depSet' log' :
  resolveImport fuel ix from (depSet, log) raw = Done (depSet', log') →
  ∃ dΔ lΔ, resolveImport fuel ix from (∅, []) raw = Done (dΔ, lΔ)
           ∧ depSet' = dΔ ∪ depSet ∧ log' = log ++ lΔ
           ∧ (∀ k v, dΔ !! k = Some v → v = true).
Proof.
  unfold resolveImport, resolveImportWith.
  destruct (normaliseImports fuel raw ix from) as [imp| |]; [|done..].
  cbn [mbind result_bind].
  destruct (resolveWithIndex ix imp from) as [l [[| |l1 l2 i f]|]].
  - intros [= <- <-]. exists ∅, []. split_and!; [done|by rewrite map_empty_union|by rewrite app_nil_r|done].
  - destruct (isNpmDependency imp).
    + destruct (npmPackage imp) as [name| |]; [|done..]. cbn [mbind result_bind].
      intros [= <- <-]. eexists _, []. split_and!; [done| |by rewrite app_nil_r|].
      * by rewrite insert_empty, insert_union_singleton_l.
      * intros k v. rewrite insert_empty. by intros [_ <-]%lookup_singleton_Some.
    + intros [= <- <-]. eexists ∅, _. split_and!; [done|by rewrite map_empty_union|done|done].
  - intros [= <- <-]. eexists ∅, _. split_and!; [done|by rewrite map_empty_union|done|done].
  - intros [= <- <-]. eexists _, []. split_and!; [done| |by rewrite app_nil_r|].
    + by rewrite insert_empty, insert_union_singleton_l.
    + intros k v. rewrite insert_empty. by intros [_ <-]%lookup_singleton_Some.
Qed.

(** The dependency set after the loop: the keys it had, and the keys the
    iterations add for the imports, whatever their order and number. *)
Lemma resolveImports_deps imports : ∀ depSet log depSet' log',
  resolveImports fuel ix from (depSet, log) imports = Done (depSet', log') →
  (allTrue depSet → allTrue depSet')
  ∧ ∀ k, is_Some (depSet' !! k) ↔
         is_Some (depSet !! k)
         ∨ ∃ raw dΔ lΔ, raw ∈ imports
             ∧ resolveImport fuel ix from (∅, []) raw = Done (dΔ, lΔ)
             ∧ is_Some (dΔ !! k).
Proof.
  induction imports as [|raw imports IH]; intros depSet log depSet' log'.
  - intros [= <- <-]. split; [done|]. intros k. split; [by left|].
    intros [?|(raw & ? & ? & ?%elem_of_nil & _)]; done.
  - cbn [resolveImports].
    destruct (resolveImport fuel ix from (depSet, log) raw) as [[d1 l1]| |] eqn:Hstep;
      [|done..].
    cbn [mbind result_bind]. intros Hrest.
    destruct (resolveImport_state _ _ _ _ _ Hstep) as (dΔ & lΔ & HΔ & -> & -> & Htrue).
    destruct (IH _ _ _ _ Hrest) as [Hall Hkeys]. split.
    + intros Hd. apply Hall. intros k v [?|[_ ?]]%lookup_union_Some_raw; eauto.
    + intros k. rewrite Hkeys. unfold is_Some. setoid_rewrite lookup_union_Some_raw.
      split.
      * intros [[v [?|[_ ?]]]|(raw' & d' & l' & Hin & Hs & Hk)]; eauto.
        -- right. exists raw, dΔ, lΔ. split_and!; [left|done|eauto].
        -- right. exists raw', d', l'. split_and!; [by right|done|done].
      * intros [[v Hv]|(raw' & d' & l' & Hin & Hs & Hk)].
        -- left. destruct (dΔ !! k) eqn:HΔk; eauto.
        -- apply elem_of_cons in Hin as [->|Hin].
           ++ left. rewrite Hs in HΔ. injection HΔ as <- <-.
              destruct Hk as [v Hv]. eauto.
           ++ right. eauto 10.
Qed.

Lemma resolveImports_same_elements imports1 imports2 d1 l1 d2 l2 :
  (∀ raw, raw ∈ imports1 ↔ raw ∈ imports2) →
  resolveImports fuel ix from (∅, []) imports1 = Done (d1, l1) →
  resolveImports fuel ix from (∅, []) imports2 = Done (d2, l2) →
  d1 = d2.
Proof.
  intros Hsame H1 H2.
  destruct (resolveImports_deps _ _ _ _ _ H1) as [Ht1 Hk1].
  destruct (resolveImports_deps _ _ _ _ _ H2) as [Ht2 Hk2].
  assert (Hempty : allTrue ∅) by (intros k v; by rewrite lookup_empty).
  specialize (Ht1 Hempty). specialize (Ht2 Hempty).
  assert (Hiff : ∀ k, is_Some (d1 !! k) ↔ is_Some (d2 !! k)).
  { intros k. rewrite Hk1, Hk2. by setoid_rewrite Hsame. }
  apply map_eq. intros k. specialize (Hiff k).
  destruct (d1 !! k) as [v1|] eqn:E1, (d2 !! k) as [v2|] eqn:E2.
  - by rewrite (Ht1 _ _ E1), (Ht2 _ _ E2).
  - destruct Hiff as [[? ?] _]; [eauto|done].
  - destruct Hiff as [_ [? ?]]; [eauto|done].
  - done.
Qed.

End ImportLoop.

(** What [Resolve] attaches for a dependency set. *)
Lemma sort_Strings_keys (depSet : gmap string bool) :
  let deps := sort_Strings (map_to_list depSet).*1 in
  NoDup deps ∧ StronglySorted String.le deps
  ∧ ∀ d, d ∈ deps ↔ is_Some (depSet !! d).
Proof.
  cbn zeta. unfold sort_Strings. split_and!.
  - rewrite merge_sort_Permutation. apply NoDup_fst_map_to_list.
  - apply StronglySorted_merge_sort; apply _.
  - intros d. rewrite merge_sort_Permutation, list_elem_of_fmap. split.
    + intros ([k v] & -> & Hin%elem_of_map_to_list). eauto.
    + intros [v Hv]. exists (d, v). split; [done|]. by apply elem_of_map_to_list.
Qed.

(** The order in which the keys of the map are visited does not matter. *)
Lemma sort_Strings_Permutation l1 l2 : l1 ≡ₚ l2 → sort_Strings l1 = sort_Strings l2.
Proof.
  intros Hp. unfold sort_Strings.
  apply (Sorted_unique String.le).
  - apply Sorted_merge_sort; apply _.
  - apply Sorted_merge_sort; apply _.
  - by rewrite !merge_sort_Permutation.
Qed.

(** ** The index and the lowercased import strings *)
Section IndexFacts.



Lemma FindRulesByImport_app ix1 ix2 spec lang :
  resolve.FindRulesByImport (ix1 ++ ix2) spec lang
  = resolve.FindRulesByImport ix1 spec lang ++ resolve.FindRulesByImport ix2 spec lang.
Proof. unfold resolve.FindRulesByImport. by rewrite List.filter_app, fmap_app. Qed.

(** The two outcomes of [AddRule]. *)
Lemma AddRule_known unicodeLower ix repoName r f :
  label.New repoName (rule.Pkg f) (rule.Name r) ∈ indexedLabels ix →
  AddRule unicodeLower ix repoName r f = ix.
Proof. intros Hin. unfold AddRule. cbn [resolve.rr_label]. by rewrite bool_decide_eq_true_2. Qed.

Lemma AddRule_fresh unicodeLower ix repoName r f :
  label.New repoName (rule.Pkg f) (rule.Name r) ∉ indexedLabels ix →
  AddRule unicodeLower ix repoName r f
  = ix ++ [resolve.mkRuleRecord (label.New repoName (rule.Pkg f) (rule.Name r))
             (Imports unicodeLower r f) [] "js"].
Proof. intros Hin. unfold AddRule. cbn [resolve.rr_label]. by rewrite bool_decide_eq_false_2. Qed.

(** A rule added a second time is dropped. *)
Lemma AddRule_twice unicodeLower ix repoName r f :
  AddRule unicodeLower (AddRule unicodeLower ix repoName r f) repoName r f
  = AddRule unicodeLower ix repoName r f.
Proof.
  destruct (decide (label.New repoName (rule.Pkg f) (rule.Name r) ∈ indexedLabels ix))
    as [Hin|Hin].
  - by rewrite !(AddRule_known _ ix) by done.
  - rewrite (AddRule_fresh _ ix) by done. apply AddRule_known.
    unfold indexedLabels. rewrite fmap_app. apply elem_of_app. right.
    cbn. apply list_elem_of_singleton. done.
Qed.


End IndexFacts.

(** ** Kinds of the rules [generateEmpty] returns *)
Section StaleFacts.

Lemma generateEmpty_kinds f files kinds e :
  e ∈ generateEmpty f files kinds → mapGet kinds (rule.Kind e) = true.
Proof.
  unfold generateEmpty. destruct f as [f|]; [|by intros ?%elem_of_nil].
  generalize (foldl (λ m f0, <[f0:=true]> m) (∅ : gmap string bool) files).
  intros known.
  assert (Hgen : ∀ rules acc,
    (∀ e, e ∈ acc → mapGet kinds (rule.Kind e) = true) →
    e ∈ foldl (λ empty r,
         if negb (mapGet kinds (rule.Kind r)) then empty
         else if (length (rule.AttrStrings r "srcs") =? 0)
                 && bool_decide (rule.Attr r "srcs" ≠ None) then empty
         else if existsb (λ src, mapGet known src) (rule.AttrStrings r "srcs") then empty
         else empty ++ [rule.NewRule (rule.Kind r) (rule.Name r)]) acc rules →
    mapGet kinds (rule.Kind e) = true).
  { induction rules as [|r rules IH]; intros acc Hacc; cbn [foldl]; [by apply Hacc|].
    apply IH. destruct (mapGet kinds (rule.Kind r)) eqn:Hk; cbn [negb]; [|done].
    destruct (_ && _); [done|]. destruct (existsb _ _); [done|].
    intros e' [?|He']%elem_of_app; [by apply Hacc|].
    apply list_elem_of_singleton in He' as ->. done. }
  apply Hgen. by intros ? ?%elem_of_nil.
Qed.

End StaleFacts.

(** ** What [Resolve] leaves on the rule *)
Section ResolveFacts.

Variables (fuel : nat) (ix : resolve.RuleIndex) (from : label.Label).

Lemma Resolve_Done_inv r imports r' log :
  Resolve fuel ix r imports from = Done (r', log) →
  ∃ depSet log0,
    resolveImports fuel ix from (∅, []) imports = Done (depSet, log0)
    ∧ rule.Attr r' "deps"
      = (if 0 <? size depSet
         then Some (rule.stringsExpr (sort_Strings (map_to_list depSet).*1))
         else None)
    ∧ (rule.Kind r ≠ "jest_node_test" →
       rule.Attr r' "config" = rule.Attr r "config" ∧ log = log0).
Proof.
  intros HR.
  destruct (resolveImports fuel ix from (∅, []) imports) as [[depSet log0]| |] eqn:Himp.
  2,3: by unfold Resolve in HR; rewrite Himp in HR.
  rewrite (Resolve_after_imports _ _ _ _ _ _ _ Himp) in HR. cbn zeta in HR.
  exists depSet, log0. split; [done|].
  set (r2 := if 0 <? size depSet then _ else _) in HR.
  assert (Hdeps : rule.Attr r2 "deps"
                  = (if 0 <? size depSet
                     then Some (rule.stringsExpr (sort_Strings (map_to_list depSet).*1))
                     else None)).
  { unfold r2, rule.Attr, rule.SetAttr, rule.DelAttr.
    destruct (0 <? size depSet); cbn [rule.attrs].
    - by rewrite lookup_insert_eq.
    - by rewrite lookup_delete_eq. }
  assert (Hcfg : rule.Attr r2 "config" = rule.Attr r "config").
  { unfold r2, rule.Attr, rule.SetAttr, rule.DelAttr.
    destruct (0 <? size depSet); cbn [rule.attrs].
    - by rewrite lookup_insert_ne, lookup_delete_ne.
    - by rewrite lookup_delete_ne. }
  destruct (String.eqb (rule.Kind r) "jest_node_test") eqn:Hk.
  - split; [|by intros ?; apply String.eqb_eq in Hk].
    destruct (findJsConfig fuel "jest" ix from) as [[l [e|]]| |]; [| |done..];
      cbn [mbind result_bind] in HR; injection HR as <- <-; [done|].
    rewrite <- Hdeps. unfold rule.Attr, rule.SetAttr. cbn [rule.attrs].
    by rewrite lookup_insert_ne.
  - injection HR as <- <-. done.
Qed.

End ResolveFacts.

(** [Resolve] panics or returns, by the imports, for an origin in a clean
    relative package and enough fuel for the upward searches. *)
Lemma Resolve_Panic_or_Done fuel ix r imports from :
  isCleanRel (label.Pkg from) = true →
  pathDepth (label.Pkg from) + 2 ≤ fuel →
  ((∃ raw, raw ∈ imports ∧ panicsOn fuel ix from raw)
   ∧ Resolve fuel ix r imports from = Panic)
  ∨ ((∀ raw, raw ∈ imports → ¬ panicsOn fuel ix from raw)
     ∧ ∃ r' log, Resolve fuel ix r imports from = Done (r', log)).
Proof.
  intros Hc Hf.
  destruct (resolveImports_total fuel ix from (∅, []) imports Hc Hf)
    as [[Hbad Hp]|[Hok ([depSet log] & Himp)]].
  - left. split; [done|]. unfold Resolve. by rewrite Hp.
  - right. split; [done|].
    rewrite (Resolve_after_imports _ _ _ _ _ _ _ Himp). cbn zeta.
    destruct (String.eqb (rule.Kind r) "jest_node_test"); [|eauto].
    destruct (findJsConfig_Done "jest" ix from fuel Hc Hf) as (l & err & -> & _).
    cbn [mbind result_bind]. destruct err; eauto.
Qed.

Lemma GenerateRules_never_flags_ts_project jsFileinfo args e :
  JsLibrary (language.Config args) ≠ "ts_project" →
  e ∈ language.Empty (GenerateRules jsFileinfo args) →
  rule.Kind e ≠ "ts_project".
Proof.
  intros Hlib. unfold GenerateRules.
  destruct (foldl _ _ _) as [[[rules imports] jsFiles] jsImportFiles].
  cbn [language.Empty]. intros He Hk.
  assert (Hin : e ∈ generateEmpty (language.File args) jsFiles
                   (<[JsLibrary (language.Config args):=true]>
                      (<["jest_test":=true]> (<["ts_library":=true]> ∅)))
                ∨ e ∈ generateEmpty (language.File args) jsImportFiles
                       (<["js_import":=true]> ∅)).
  { destruct (0 <? length _); [|by left]. by apply elem_of_app in He. }
  destruct Hin as [Hin%generateEmpty_kinds|Hin%generateEmpty_kinds];
    rewrite Hk in Hin; unfold mapGet in Hin.
  - rewrite lookup_insert_ne in Hin by done. done.
  - done.
Qed.

(** * The claims *)

(** Claim C1 (the code departs from the claim).  A test file gets the kind
    [jest_test] from [GenerateRules], a kind [Kinds] declares with [config]
    among its resolved attributes, and the upward search from its package
    finds the jest configuration three directories up; yet [Resolve] returns
    the rule without a [config] attribute, because it attaches the
    configuration to rules of kind [jest_node_test] only: on a rule of kind
    [jest_test] it never changes [config]. *)
Theorem Resolve_jest_test_config_not_set :
  language.Gen (GenerateRules sampleFileinfo sampleTestArgs) = [sampleTestRule]
  ∧ rule.Kind sampleTestRule = "jest_test"
  ∧ (∃ info, Kinds !! "jest_test" = Some info
             ∧ mapGet (rule.ResolveAttrs info) "config" = true)
  ∧ Kinds !! "jest_node_test" = None
  ∧ Nat.iter 3 parentDir (label.Pkg sampleFrom) = "a"
  ∧ findJsConfig 6 "jest" sampleIx sampleFrom
    = Done (label.New "" "a" "jest.config", None)
  ∧ (∃ r' log, Resolve 6 sampleIx sampleTestRule [] sampleFrom = Done (r', log)
               ∧ rule.Attr r' "config" = None)
  ∧ (∀ fuel ix r imports from r' log,
       rule.Kind r = "jest_test" →
       Resolve fuel ix r imports from = Done (r', log) →
       rule.Attr r' "config" = rule.Attr r "config").
Proof.
  split_and!; [by vm_compute|by vm_compute| |by vm_compute..| |].
  - eexists. split; by vm_compute.
  - eexists _, _. split; by vm_compute.
  - intros fuel ix r imports from r' log Hk HR.
    destruct (Resolve_Done_inv _ _ _ _ _ _ _ HR) as (depSet & log0 & _ & _ & Hcfg).
    apply Hcfg. by rewrite Hk.
Qed.

(** Claim C2 (the code departs from the claim).  [GenerateRules] gives [new.ts]
    the kind [ts_project], which [Kinds] declares ([ts_library] it does
    not); the build file declares a [ts_project] rule whose only source
    [old.ts] is not among the files of the directory, and a [js_library]
    rule in the same situation.  The library is returned as stale, the
    typed module is not: the stale kinds passed to [generateEmpty] name
    [ts_library], not [ts_project], so that no rule of kind [ts_project] is
    ever returned as stale (unless the library kind of the configuration is
    itself [ts_project]). *)
Theorem GenerateRules_stale_ts_project_not_flagged :
  rule.Kind <$> language.Gen (GenerateRules sampleFileinfo staleArgs) = ["ts_project"]
  ∧ is_Some (Kinds !! "ts_project") ∧ Kinds !! "ts_library" = None
  ∧ (∃ r, r ∈ rule.Rules staleFile ∧ rule.Kind r = "ts_project"
          ∧ rule.AttrStrings r "srcs" = ["old.ts"]
          ∧ "old.ts" ∉ language.RegularFiles staleArgs ++ language.GenFiles staleArgs)
  ∧ language.Empty (GenerateRules sampleFileinfo staleArgs)
    = [rule.NewRule "js_library" "gone"]
  ∧ (∀ jsFileinfo args e,
       JsLibrary (language.Config args) ≠ "ts_project" →
       e ∈ language.Empty (GenerateRules jsFileinfo args) →
       rule.Kind e ≠ "ts_project").
Proof.
  split_and!; [by vm_compute|by eexists; vm_compute|by vm_compute| |by vm_compute|].
  - eexists. split_and!; [left|done|by vm_compute|].
    by intros [=]%list_elem_of_singleton.
  - apply GenerateRules_never_flags_ts_project.
Qed.

(** Claim C3.  [resolveWithIndex] by the number of rules the index returns for
    the import: none, the not-found error; two or more, an ambiguity error
    (naming the import and the origin); exactly one that is not a
    self-import, its label and no error; exactly one that is the origin
    itself, the skip error. *)
Theorem resolveWithIndex_outcomes (ix : resolve.RuleIndex) (imp : string)
    (from : label.Label) :
  let matches := resolve.FindRulesByImport ix (resolve.mkImportSpec "js" imp) "js" in
  (length matches = 0 →
     resolveWithIndex ix imp from = (label.NoLabel, Some notFoundError))
  ∧ (2 ≤ length matches →
     ∃ l1 l2, resolveWithIndex ix imp from
              = (label.NoLabel, Some (ambiguousError l1 l2 imp from)))
  ∧ (∀ m, matches = [m] → resolve.IsSelfImport m from = false →
     resolveWithIndex ix imp from = (resolve.Label m, None))
  ∧ (∀ m, matches = [m] → resolve.Label m = from →
     resolveWithIndex ix imp from = (label.NoLabel, Some skipImportError)).
Proof.
  intros matches. unfold resolveWithIndex. fold matches. split_and!.
  - destruct matches; [done|]. simpl. lia.
  - destruct matches as [|m0 [|m1 ms]]; simpl; [lia..|]. eauto.
  - by intros m -> ->.
  - intros m -> Hm. unfold resolve.IsSelfImport. by rewrite Hm, Equal_refl.
Qed.

Lemma resolveWithIndex_outcomes_witness :
  resolveWithIndex [] "lodash" sampleFrom = (label.NoLabel, Some notFoundError)
  ∧ (∃ l1 l2, resolveWithIndex ambiguousIx "lib/util" sampleFrom
              = (label.NoLabel, Some (ambiguousError l1 l2 "lib/util" sampleFrom)))
  ∧ resolveWithIndex sampleIx "a/jest.config" sampleFrom
    = (label.New "" "a" "jest.config", None)
  ∧ resolveWithIndex sampleIx "a/jest.config" (label.New "" "a" "jest.config")
    = (label.NoLabel, Some skipImportError).
Proof.
  split_and!.
  - apply (resolveWithIndex_outcomes [] "lodash" sampleFrom). reflexivity.
  - apply (resolveWithIndex_outcomes ambiguousIx "lib/util" sampleFrom).
    vm_compute. lia.
  - destruct (resolveWithIndex_outcomes sampleIx "a/jest.config" sampleFrom)
      as (_ & _ & H & _).
    apply (H (resolve.mkFindResult (label.New "" "a" "jest.config") []));
      reflexivity.
  - destruct (resolveWithIndex_outcomes sampleIx "a/jest.config"
                (label.New "" "a" "jest.config")) as (_ & _ & _ & H).
    apply (H (resolve.mkFindResult (label.New "" "a" "jest.config") []));
      reflexivity.
Defined.

(** Claim C4.  [Resolve] returns for every list of imports none of which
    makes the package-name derivation panic (origin in a clean relative
    package, enough fuel for the upward searches).  Whenever it returns, the
    [deps] attribute of the rule is absent if the loop over the imports left
    the dependency set empty; otherwise it is the list of the keys of that
    set, without duplicates and ascending in the byte order of strings.  The
    attribute depends on the imports as a set only: another list with the
    same elements, in any order and with any repetitions, gives the same
    attribute. *)
Theorem Resolve_deps_sorted (fuel : nat) (ix : resolve.RuleIndex) (r : rule.Rule)
    (imports : list string) (from : label.Label) :
  (isCleanRel (label.Pkg from) = true →
   pathDepth (label.Pkg from) + 2 ≤ fuel →
   (∀ raw, raw ∈ imports → ¬ panicsOn fuel ix from raw) →
   ∃ r' log, Resolve fuel ix r imports from = Done (r', log))
  ∧ ∀ r' log,
      Resolve fuel ix r imports from = Done (r', log) →
      ∃ depSet log0,
        resolveImports fuel ix from (∅, []) imports = Done (depSet, log0)
        ∧ (depSet = ∅ → rule.Attr r' "deps" = None)
        ∧ (depSet ≠ ∅ →
           ∃ deps, rule.Attr r' "deps" = Some (rule.stringsExpr deps)
                   ∧ deps ≠ [] ∧ NoDup deps ∧ StronglySorted String.le deps
                   ∧ ∀ d, d ∈ deps ↔ is_Some (depSet !! d))
        ∧ (∀ imports' r'' log'',
             (∀ raw, raw ∈ imports ↔ raw ∈ imports') →
             Resolve fuel ix r imports' from = Done (r'', log'') →
             rule.Attr r'' "deps" = rule.Attr r' "deps").
Proof.
  split.
  { intros Hc Hf Hok.
    destruct (Resolve_Panic_or_Done fuel ix r imports from Hc Hf)
      as [[(raw & Hin & Hraw) _]|[_ ?]]; [|done]. by destruct (Hok raw Hin). }
  intros r' log HR.
  destruct (Resolve_Done_inv _ _ _ _ _ _ _ HR) as (depSet & log0 & Himp & Hdeps & _).
  exists depSet, log0. split_and!; [done|..].
  - intros ->. by rewrite Hdeps.
  - intros Hne. rewrite Hdeps.
    assert (Hsize : 0 < size depSet).
    { destruct (size depSet) eqn:Hs; [|lia]. by apply map_size_empty_iff in Hs. }
    apply Nat.ltb_lt in Hsize as ->.
    destruct (sort_Strings_keys depSet) as (Hnd & Hsort & Hmem).
    eexists. split_and!; [done| |done..].
    intros Hnil. apply Hne, map_eq. intros k. rewrite lookup_empty.
    destruct (depSet !! k) eqn:Hk; [|done].
    assert (k ∈ sort_Strings (map_to_list depSet).*1) as Hin by (apply Hmem; eauto).
    rewrite Hnil in Hin. by apply elem_of_nil in Hin.
  - intros imports' r'' log'' Hsame HR'.
    destruct (Resolve_Done_inv _ _ _ _ _ _ _ HR')
      as (depSet' & log0' & Himp' & Hdeps' & _).
    rewrite Hdeps, Hdeps'.
    by rewrite (resolveImports_same_elements _ _ _ _ _ _ _ _ _ Hsame Himp Himp').
Qed.

Lemma Resolve_deps_sorted_witness :
  ∃ r' log,
    Resolve 6 sampleIx sampleTestRule
      ["zlib"; "lodash"; "../../../jest.config"; "lodash"; "@/a/jest.config"; "lodash/fp"]
      sampleFrom = Done (r', log)
    ∧ rule.Attr r' "deps"
      = Some (rule.stringsExpr ["//a:jest.config"; "@npm//lodash"; "@npm//zlib"])
    ∧ ∃ depSet log0,
        resolveImports 6 sampleIx sampleFrom (∅, [])
          ["zlib"; "lodash"; "../../../jest.config"; "lodash"; "@/a/jest.config"; "lodash/fp"]
        = Done (depSet, log0)
        ∧ (depSet = ∅ → rule.Attr r' "deps" = None)
        ∧ (depSet ≠ ∅ →
           ∃ deps, rule.Attr r' "deps" = Some (rule.stringsExpr deps)
                   ∧ deps ≠ [] ∧ NoDup deps ∧ StronglySorted String.le deps
                   ∧ ∀ d, d ∈ deps ↔ is_Some (depSet !! d))
        ∧ (∀ imports' r'' log'',
             (∀ raw, raw ∈ ["zlib"; "lodash"; "../../../jest.config"; "lodash";
                            "@/a/jest.config"; "lodash/fp"] ↔ raw ∈ imports') →
             Resolve 6 sampleIx sampleTestRule imports' sampleFrom = Done (r'', log'') →
             rule.Attr r'' "deps" = rule.Attr r' "deps").
Proof.
  eexists _, _. split; [vm_compute; reflexivity|]. split; [vm_compute; reflexivity|].
  eapply (Resolve_deps_sorted 6 sampleIx sampleTestRule
            ["zlib"; "lodash"; "../../../jest.config"; "lodash"; "@/a/jest.config"; "lodash/fp"]
            sampleFrom).
  vm_compute. reflexivity.
Defined.

(** Claim C5.  [isNpmDependency] rejects an import exactly when it starts with one
    of [./], [/], [../], [~/], [@/], [~~/].  The package name derived from
    an import is the first element of its split on slashes, or the first
    two elements joined by a slash when the first starts with [@]; the key
    put in the dependency set is that name after [@npm//].  An import the
    index does not know and [isNpmDependency] rejects adds no key; it is
    logged as not found. *)
Theorem isNpmDependency_classifier (imp : string) :
  (isNpmDependency imp = false ↔
     HasPrefix imp "./" = true ∨ HasPrefix imp "/" = true
     ∨ HasPrefix imp "../" = true ∨ HasPrefix imp "~/" = true
     ∨ HasPrefix imp "@/" = true ∨ HasPrefix imp "~~/" = true)
  ∧ (∃ seg0 rest, Split imp slash = seg0 :: rest
     ∧ (HasPrefix seg0 "@" = false → npmPackage imp = Done seg0)
     ∧ (HasPrefix seg0 "@" = true → ∀ seg1 rest', rest = seg1 :: rest' →
          npmPackage imp = Done (seg0 +:+ "/" +:+ seg1)))
  ∧ (∀ fuel ix from depSet log raw l name,
       normaliseImports fuel raw ix from = Done imp →
       resolveWithIndex ix imp from = (l, Some notFoundError) →
       isNpmDependency imp = true →
       npmPackage imp = Done name →
       resolveImport fuel ix from (depSet, log) raw
       = Done (<["@npm//" +:+ name := true]> depSet, log))
  ∧ (∀ fuel ix from depSet log raw l,
       normaliseImports fuel raw ix from = Done imp →
       resolveWithIndex ix imp from = (l, Some notFoundError) →
       isNpmDependency imp = false →
       resolveImport fuel ix from (depSet, log) raw
       = Done (depSet, log ++ [LogImportNotFound imp])).
Proof.
  split_and!; [| | |
    intros fuel ix from depSet log raw l Hn Hr Hnpm;
    unfold resolveImport, resolveImportWith; rewrite Hn; cbn [mbind result_bind];
    by rewrite Hr, Hnpm].
  - unfold isNpmDependency. rewrite negb_false_iff, !orb_true_iff. tauto.
  - destruct (Split_head imp slash) as (seg0 & rest & Hs).
    exists seg0, rest. split; [done|]. unfold npmPackage. rewrite Hs.
    cbn [lookup list_lookup]. split.
    + by intros ->.
    + by intros -> seg1 rest' ->.
  - intros fuel ix from depSet log raw l name Hn Hr Hnpm Hp.
    unfold resolveImport, resolveImportWith. rewrite Hn. cbn [mbind result_bind].
    by rewrite Hr, Hnpm, Hp.
Qed.

Lemma isNpmDependency_classifier_witness :
  isNpmDependency "./local" = false
  ∧ npmPackage "lodash/fp" = Done "lodash"
  ∧ npmPackage "@scope/pkg/sub" = Done "@scope/pkg"
  ∧ resolveImport 6 sampleIx sampleFrom (∅, []) "@scope/pkg/sub"
    = Done (<["@npm//@scope/pkg" := true]> ∅, []).
Proof.
  split_and!.
  - apply (isNpmDependency_classifier "./local"). left. reflexivity.
  - destruct (isNpmDependency_classifier "lodash/fp") as (_ & (s0 & rest & Hs & H & _) & _).
    injection Hs as <- <-. apply H. reflexivity.
  - destruct (isNpmDependency_classifier "@scope/pkg/sub")
      as (_ & (s0 & rest & Hs & _ & H) & _).
    injection Hs as <- <-. apply (H eq_refl "pkg" ["sub"]). reflexivity.
  - apply (isNpmDependency_classifier "@scope/pkg/sub" )
      with (l := label.NoLabel); reflexivity.
Defined.

(** Claim C6.  [normaliseImports] by prefix: [@/] and [~~/] are cut off, an
    import starting with [../] or [./] is joined to the package of the
    origin, and an import with none of the five prefixes [@/], [~~/], [~/],
    [../], [./] is returned as it is.  (The prefixes exclude one another, so
    the order of the tests does not show.) *)
Theorem normaliseImports_prefix_rules (fuel : nat) (ix : resolve.RuleIndex)
    (from : label.Label) :
  (∀ rest, normaliseImports fuel ("@/" +:+ rest) ix from = Done rest)
  ∧ (∀ rest, normaliseImports fuel ("~~/" +:+ rest) ix from = Done rest)
  ∧ (∀ rest, normaliseImports fuel ("../" +:+ rest) ix from
             = Done (Join [label.Pkg from; "../" +:+ rest]))
  ∧ (∀ rest, normaliseImports fuel ("./" +:+ rest) ix from
             = Done (Join [label.Pkg from; "./" +:+ rest]))
  ∧ (∀ imp, HasPrefix imp "@/" = false → HasPrefix imp "~~/" = false →
            HasPrefix imp "~/" = false → HasPrefix imp "../" = false →
            HasPrefix imp "./" = false →
            normaliseImports fuel imp ix from = Done imp).
Proof.
  split_and!; [reflexivity..|].
  intros imp H1 H2 H3 H4 H5. unfold normaliseImports.
  by rewrite H1, H2, H3, H4, H5.
Qed.

Lemma normaliseImports_prefix_rules_witness :
  normaliseImports 6 "@/a/jest.config" sampleIx sampleFrom = Done "a/jest.config"
  ∧ normaliseImports 6 "~~/a/jest.config" sampleIx sampleFrom = Done "a/jest.config"
  ∧ normaliseImports 6 "../x" sampleIx sampleFrom = Done "a/b/c/x"
  ∧ normaliseImports 6 "./x" sampleIx sampleFrom = Done "a/b/c/d/x"
  ∧ normaliseImports 6 "lodash" sampleIx sampleFrom = Done "lodash".
Proof.
  destruct (normaliseImports_prefix_rules 6 sampleIx sampleFrom)
    as (H1 & H2 & H3 & H4 & H5).
  split_and!.
  - apply (H1 "a/jest.config").
  - apply (H2 "a/jest.config").
  - apply (H3 "x").
  - apply (H4 "x").
  - apply (H5 "lodash"); reflexivity.
Defined.

(** Claim C7.  An import that starts with [@] and holds no slash splits into one
    element, and the package-name derivation panics on it.  Hence, for an
    origin in a clean relative package and enough fuel for the upward
    searches: [Resolve] panics when one of the imports has such a normal
    form unknown to the index, and returns when none has. *)
Theorem Resolve_total_iff (fuel : nat) (ix : resolve.RuleIndex) (r : rule.Rule)
    (imports : list string) (from : label.Label) :
  isCleanRel (label.Pkg from) = true →
  pathDepth (label.Pkg from) + 2 ≤ fuel →
  (∀ imp, HasPrefix imp "@" = true → ContainsByte imp slash = false →
     Split imp slash = [imp] ∧ isNpmDependency imp = true ∧ npmPackage imp = Panic)
  ∧ (∀ st raw, panicsOn fuel ix from raw →
       resolveImport fuel ix from st raw = Panic)
  ∧ ((∃ raw, raw ∈ imports ∧ panicsOn fuel ix from raw) →
     Resolve fuel ix r imports from = Panic)
  ∧ ((∀ raw, raw ∈ imports → ¬ panicsOn fuel ix from raw) →
     ∃ r' log, Resolve fuel ix r imports from = Done (r', log)).
Proof.
  intros Hc Hf. split_and!.
  - intros imp Hat Hsl. split_and!.
    + by apply Split_noSlash.
    + by apply at_noSlash_isNpm.
    + by apply npmPackage_Panic.
  - intros st raw Hbad.
    by destruct (resolveImport_cases fuel ix from st raw Hc Hf) as [[_ ?]|[? _]].
  - intros (raw & Hin & Hraw).
    destruct (Resolve_Panic_or_Done fuel ix r imports from Hc Hf) as [[_ ?]|[Hok _]];
      [done|]. by destruct (Hok raw Hin).
  - intros Hok.
    destruct (Resolve_Panic_or_Done fuel ix r imports from Hc Hf)
      as [[(raw & Hin & Hraw) _]|[_ ?]]; [|done]. by destruct (Hok raw Hin).
Qed.

Lemma Resolve_total_iff_witness :
  npmPackage "@foo" = Panic
  ∧ Resolve 6 sampleIx sampleTestRule ["lodash"; "@foo"] sampleFrom = Panic
  ∧ ∃ r' log, Resolve 6 sampleIx sampleTestRule ["lodash"; "@foo/bar"] sampleFrom
              = Done (r', log).
Proof.
  split_and!.
  - apply (Resolve_total_iff 6 sampleIx sampleTestRule [] sampleFrom);
      [reflexivity|vm_compute; lia|reflexivity|reflexivity].
  - apply (Resolve_total_iff 6 sampleIx sampleTestRule ["lodash"; "@foo"] sampleFrom);
      [reflexivity|vm_compute; lia|].
    exists "@foo". split; [right; left|].
    exists "@foo". split_and!; reflexivity.
  - apply (Resolve_total_iff 6 sampleIx sampleTestRule ["lodash"; "@foo/bar"] sampleFrom);
      [reflexivity|vm_compute; lia|].
    intros raw Hin (imp & Hn & _ & Hat & Hsl).
    apply elem_of_cons in Hin as [->|Hin].
    { injection Hn as <-. discriminate Hat. }
    apply list_elem_of_singleton in Hin as ->.
    injection Hn as <-. discriminate Hsl.
Defined.

(** Claim C8.  From a clean relative package path the upward search reaches the
    sentinel [..] in at most one step more than the path has elements, so
    [findJsConfig] returns once the fuel exceeds that: a match, or the
    not-found error when no directory on the way up has one.  [Resolve]
    then returns too, with the [config] attribute as it was (and, for a
    rule of kind [jest_node_test], one more line in the log). *)
Theorem findJsConfig_terminates (configName : string) (ix : resolve.RuleIndex)
    (from : label.Label) (fuel : nat) :
  isCleanRel (label.Pkg from) = true →
  pathDepth (label.Pkg from) + 2 ≤ fuel →
  (∃ n, n ≤ S (pathDepth (label.Pkg from))
        ∧ Nat.iter n parentDir (label.Pkg from) = "..")
  ∧ (∃ l err, findJsConfig fuel configName ix from = Done (l, err)
              ∧ (err = None ∨ (l = label.NoLabel ∧ err = Some notFoundError)))
  ∧ ((∀ k, (resolveWithIndex ix
              (Join [Nat.iter k parentDir (label.Pkg from); configName +:+ ".config"])
              from).2 ≠ None) →
     findJsConfig fuel configName ix from = Done (label.NoLabel, Some notFoundError))
  ∧ (∀ r imports depSet log,
       resolveImports fuel ix from (∅, []) imports = Done (depSet, log) →
       findJsConfig fuel "jest" ix from = Done (label.NoLabel, Some notFoundError) →
       ∃ r',
         Resolve fuel ix r imports from
         = Done (r', if String.eqb (rule.Kind r) "jest_node_test"
                     then log ++ [LogJestConfig notFoundError] else log)
         ∧ rule.Attr r' "config" = rule.Attr r "config").
Proof.
  intros Hclean Hfuel.
  destruct (isCleanRel_reaches_sentinel _ Hclean) as (n & Hn & Hiter).
  split_and!.
  - eauto.
  - by apply findJsConfig_Done.
  - intros Hno. apply (findJsConfigFrom_not_found _ _ _ n); [done|lia|done].
  - intros r imports depSet log Himp Hjest.
    rewrite (Resolve_after_imports _ _ _ _ _ _ _ Himp). cbn zeta.
    rewrite Hjest. cbn [mbind result_bind].
    assert (Hcfg : ∀ r0, rule.Attr r0 "config" = rule.Attr r "config" →
      rule.Attr (if 0 <? size depSet
                 then rule.SetAttr r0 "deps"
                        (rule.stringsExpr (sort_Strings (map_to_list depSet).*1))
                 else r0) "config" = rule.Attr r "config").
    { intros r0 H0. destruct (0 <? size depSet); [|done].
      unfold rule.Attr, rule.SetAttr in *. cbn [rule.attrs].
      by rewrite lookup_insert_ne. }
    assert (Hdel : rule.Attr (rule.DelAttr r "deps") "config" = rule.Attr r "config").
    { unfold rule.Attr, rule.DelAttr. cbn [rule.attrs]. by rewrite lookup_delete_ne. }
    destruct (String.eqb (rule.Kind r) "jest_node_test"); eexists; split; try done.
    all: by apply Hcfg.
Qed.

Lemma findJsConfig_terminates_witness :
  Nat.iter 5 parentDir "a/b/c/d" = ".."
  ∧ findJsConfig 6 "nuxt" [] sampleFrom = Done (label.NoLabel, Some notFoundError)
  ∧ ∃ r',
      Resolve 6 [] (rule.NewRule "jest_node_test" "foo.test") ["lodash"] sampleFrom
      = Done (r', [LogJestConfig notFoundError])
      ∧ rule.Attr r' "config" = None.
Proof.
  split_and!.
  - reflexivity.
  - apply (findJsConfig_terminates "nuxt" [] sampleFrom 6);
      [reflexivity|vm_compute; lia|].
    intros k. discriminate.
  - destruct (findJsConfig_terminates "jest" [] sampleFrom 6) as (_ & _ & _ & H);
      [reflexivity|vm_compute; lia|].
    apply (H (rule.NewRule "jest_node_test" "foo.test") ["lodash"]
             (<["@npm//lodash" := true]> ∅) []); reflexivity.
Defined.



(** Claim C10.  When the index resolves the normal form of an import to the
    origin itself, the iteration of the loop of [Resolve] returns the
    dependency set and the log it was given, whatever classifier of npm
    dependencies it is run with, and [Resolve] returns what it returns
    without that import.  On every outcome but the not-found error the
    iteration does not depend on the classifier; on the not-found error it
    does. *)
Theorem skipped_import_is_dropped (fuel : nat) (ix : resolve.RuleIndex)
    (from : label.Label) (raw imp : string) :
  normaliseImports fuel raw ix from = Done imp →
  ((resolveWithIndex ix imp from).2 = Some skipImportError →
     (∀ isNpm st, resolveImportWith isNpm fuel ix from st raw = Done st)
     ∧ (∀ r imports1 imports2,
          Resolve fuel ix r (imports1 ++ raw :: imports2) from
          = Resolve fuel ix r (imports1 ++ imports2) from))
  ∧ ((resolveWithIndex ix imp from).2 ≠ Some notFoundError →
     ∀ isNpm1 isNpm2 st,
       resolveImportWith isNpm1 fuel ix from st raw
       = resolveImportWith isNpm2 fuel ix from st raw)
  ∧ ((resolveWithIndex ix imp from).2 = Some notFoundError →
     ∀ st,
       resolveImportWith (λ _, true) fuel ix from st raw
       ≠ resolveImportWith (λ _, false) fuel ix from st raw).
Proof.
  intros Hn.
  assert (Hskip : (resolveWithIndex ix imp from).2 = Some skipImportError →
                  ∀ isNpm st, resolveImportWith isNpm fuel ix from st raw = Done st).
  { intros Hr isNpm [depSet log]. unfold resolveImportWith.
    rewrite Hn. cbn [mbind result_bind].
    destruct (resolveWithIndex ix imp from) as [l err]. cbn [snd] in Hr. by subst err. }
  split_and!.
  - intros Hr. split; [by apply Hskip|].
    intros r imports1 imports2. unfold Resolve.
    rewrite !resolveImports_app. cbn [resolveImports].
    destruct (resolveImports fuel ix from (∅, []) imports1) as [st| |]; [|done..].
    cbn [mbind result_bind]. unfold resolveImport. by rewrite (Hskip Hr).
  - intros Hr isNpm1 isNpm2 [depSet log]. unfold resolveImportWith.
    rewrite Hn. cbn [mbind result_bind].
    destruct (resolveWithIndex ix imp from) as [l [[| |l1 l2 i f]|]]; done.
  - intros Hr [depSet log]. unfold resolveImportWith.
    rewrite Hn. cbn [mbind result_bind].
    destruct (resolveWithIndex ix imp from) as [l err]. cbn [snd] in Hr. subst err.
    destruct (npmPackage imp) as [name| |]; cbn [mbind result_bind]; [|done..].
    intros [= _ Hlog]. apply (f_equal length) in Hlog.
    rewrite length_app in Hlog. cbn [length] in Hlog. lia.
Qed.

Lemma skipped_import_is_dropped_witness :
  (∀ isNpm st,
     resolveImportWith isNpm 6 sampleIx (label.New "" "a" "jest.config") st "./jest.config"
     = Done st)
  ∧ Resolve 6 sampleIx jestConfigRule ["lodash"; "./jest.config"; "zlib"]
      (label.New "" "a" "jest.config")
    = Resolve 6 sampleIx jestConfigRule ["lodash"; "zlib"] (label.New "" "a" "jest.config").
Proof.
  split.
  - apply (skipped_import_is_dropped 6 sampleIx (label.New "" "a" "jest.config")
             "./jest.config" "a/jest.config"); reflexivity.
  - apply (skipped_import_is_dropped 6 sampleIx (label.New "" "a" "jest.config")
             "./jest.config" "a/jest.config" eq_refl) with (imports1 := ["lodash"]).
    reflexivity.
Defined.

(** * Further properties *)

(** ** [resolveWithIndex] and the config searches *)

(** X1.  A label [resolveWithIndex] returns without error is the label of
    an indexed rule of language "js" that lists the import among its import
    specifications; it is not the origin, and that rule does not embed the
    origin. *)
Theorem resolveWithIndex_sound (ix : resolve.RuleIndex) (imp : string)
    (from l : label.Label) :
  resolveWithIndex ix imp from = (l, None) →
  l ≠ from
  ∧ ∃ m, m ∈ ix ∧ resolve.rr_label m = l ∧ resolve.rr_lang m = "js"
         ∧ resolve.mkImportSpec "js" imp ∈ resolve.rr_importedAs m
         ∧ from ∉ resolve.rr_embedded m.
Proof.
  unfold resolveWithIndex, resolve.FindRulesByImport.
  destruct (List.filter _ ix) as [|m [|m1 ms]] eqn:Hf; cbn [fmap list_fmap]; [done| |done].
  unfold resolve.IsSelfImport. cbn [resolve.Label resolve.Embeds].
  destruct (label.Equal from (resolve.rr_label m)) eqn:He; [done|].
  destruct (existsb _ _) eqn:Hex; [done|]. cbn [orb]. intros [= <-].
  assert (Hin : List.In m (List.filter
            (λ m0, bool_decide (resolve.mkImportSpec "js" imp ∈ resolve.rr_importedAs m0)
                   && String.eqb (resolve.rr_lang m0) "js") ix)).
  { rewrite Hf. by left. }
  apply filter_In in Hin as [Hin Hp]. apply andb_true_iff in Hp as [Hp1 Hp2].
  apply bool_decide_eq_true in Hp1. apply String.eqb_eq in Hp2.
  split.
  - intros Heq. rewrite <- Heq, Equal_refl in He. done.
  - exists m. split_and!; [by apply list_elem_of_In|done..|].
    intros Hemb. apply list_elem_of_In in Hemb.
    assert (existsb (λ e, label.Equal from e) (resolve.rr_embedded m) = true); [|congruence].
    apply existsb_exists. exists from. split; [done|apply Equal_refl].
Qed.

Lemma resolveWithIndex_sound_witness :
  label.New "" "a" "jest.config" ≠ sampleFrom
  ∧ ∃ m, m ∈ sampleIx ∧ resolve.rr_label m = label.New "" "a" "jest.config"
         ∧ resolve.rr_lang m = "js"
         ∧ resolve.mkImportSpec "js" "a/jest.config" ∈ resolve.rr_importedAs m
         ∧ sampleFrom ∉ resolve.rr_embedded m.
Proof.
  apply (resolveWithIndex_sound sampleIx "a/jest.config" sampleFrom). reflexivity.
Defined.

Section ConfigSearch.

Variables (configName : string) (ix : resolve.RuleIndex) (from : label.Label).

Lemma ancestor_S k dir : ancestor (S k) dir = ancestor k (parentDir dir).
Proof. unfold ancestor. apply Nat.iter_succ_r. Qed.

Lemma findJsConfigFrom_error fuel : ∀ dir l e,
  findJsConfigFrom fuel configName ix from dir = Done (l, Some e) →
  l = label.NoLabel ∧ e = notFoundError.
Proof.
  induction fuel as [|fuel IH]; intros dir l e; [done|]. cbn [findJsConfigFrom].
  destruct (String.eqb dir ".."); [by intros [= <- <-]|].
  destruct (resolveWithIndex ix _ from) as [l' [e'|]]; [apply IH|done].
Qed.

Lemma findJsConfigFrom_found fuel : ∀ dir l,
  findJsConfigFrom fuel configName ix from dir = Done (l, None) ↔
  ∃ k, k < fuel
       ∧ resolveWithIndex ix (Join [ancestor k dir; configName +:+ ".config"]) from
         = (l, None)
       ∧ ∀ j, j ≤ k →
           ancestor j dir ≠ ".."
           ∧ (j < k →
              (resolveWithIndex ix (Join [ancestor j dir; configName +:+ ".config"])
                 from).2 ≠ None).
Proof.
  induction fuel as [|fuel IH]; intros dir l.
  { split; [done|]. intros (k & ? & _). lia. }
  cbn [findJsConfigFrom].
  destruct (String.eqb dir "..") eqn:Hdir.
  { apply String.eqb_eq in Hdir. split; [done|].
    intros (k & _ & _ & Hj). destruct (Hj 0) as [Hne _]; [lia|]. done. }
  apply String.eqb_neq in Hdir.
  destruct (resolveWithIndex ix (Join [dir; configName +:+ ".config"]) from)
    as [l' [e'|]] eqn:Hr.
  - fold (parentDir dir). rewrite IH. split.
    + intros (k & Hk & Hres & Hj). exists (S k). rewrite ancestor_S.
      split_and!; [lia|done|]. intros [|j] Hle.
      * split; [done|]. intros _. cbn. by rewrite Hr.
      * rewrite ancestor_S. destruct (Hj j) as [? Hlt]; [lia|]. split; [done|].
        intros ?. apply Hlt. lia.
    + intros ([|k] & Hk & Hres & Hj).
      { cbn in Hres. congruence. }
      exists k. rewrite ancestor_S in Hres. split_and!; [lia|done|].
      intros j Hle. destruct (Hj (S j)) as [? Hlt]; [lia|].
      rewrite ancestor_S in *. split; [done|]. intros ?. apply Hlt. lia.
  - split.
    + intros [= <-]. exists 0. split_and!; [lia|done|].
      intros j Hle. assert (j = 0) as -> by lia. split; [done|lia].
    + intros ([|k] & Hk & Hres & Hj).
      * cbn in Hres. congruence.
      * destruct (Hj 0) as [_ Hlt]; [lia|]. cbn in Hlt. rewrite Hr in Hlt.
        exfalso. apply Hlt; [lia|done].
Qed.

End ConfigSearch.

Section ConfigSearchMore.

Variables (configName : string) (ix : resolve.RuleIndex) (from : label.Label).

Lemma findJsConfigFrom_not_found_iff fuel : ∀ dir l e,
  findJsConfigFrom fuel configName ix from dir = Done (l, Some e) ↔
  l = label.NoLabel ∧ e = notFoundError
  ∧ ∃ k, k < fuel ∧ ancestor k dir = ".."
         ∧ ∀ j, j < k →
             ancestor j dir ≠ ".."
             ∧ (resolveWithIndex ix (Join [ancestor j dir; configName +:+ ".config"])
                  from).2 ≠ None.
Proof.
  induction fuel as [|fuel IH]; intros dir l e.
  { split; [done|]. intros (_ & _ & k & ? & _). lia. }
  cbn [findJsConfigFrom].
  destruct (String.eqb dir "..") eqn:Hdir.
  { apply String.eqb_eq in Hdir. split.
    - intros [= <- <-]. split_and!; [done..|]. exists 0.
      split_and!; [lia|done|]. intros j ?. lia.
    - by intros (-> & -> & _). }
  apply String.eqb_neq in Hdir.
  destruct (resolveWithIndex ix (Join [dir; configName +:+ ".config"]) from)
    as [l' [e'|]] eqn:Hr.
  - fold (parentDir dir). rewrite IH. split.
    + intros (-> & -> & k & Hk & Hend & Hj). split_and!; [done..|].
      exists (S k). rewrite ancestor_S. split_and!; [lia|done|].
      intros [|j] Hlt.
      * split; [done|]. cbn. by rewrite Hr.
      * rewrite ancestor_S. apply Hj. lia.
    + intros (-> & -> & [|k] & Hk & Hend & Hj); [done|].
      split_and!; [done..|]. exists k. rewrite ancestor_S in Hend.
      split_and!; [lia|done|]. intros j Hlt.
      specialize (Hj (S j)). rewrite ancestor_S in Hj. apply Hj. lia.
  - split; [done|]. intros (_ & _ & [|k] & _ & Hend & Hj); [done|].
    destruct (Hj 0) as [_ Hlook]; [lia|]. cbn in Hlook. by rewrite Hr in Hlook.
Qed.

End ConfigSearchMore.

(** X2.  [findJsConfig] returns an error only as the not-found error with
    the empty label, and exactly when the way up reaches the sentinel [..]
    with every lookup before it failing; an ambiguous config or the origin's
    own config on the way is passed over, not reported. *)
Theorem findJsConfig_not_found (fuel : nat) (configName : string)
    (ix : resolve.RuleIndex) (from l : label.Label) (e : error) :
  findJsConfig fuel configName ix from = Done (l, Some e) ↔
  l = label.NoLabel ∧ e = notFoundError
  ∧ ∃ k, k < fuel ∧ ancestor k (label.Pkg from) = ".."
         ∧ ∀ j, j < k →
             ancestor j (label.Pkg from) ≠ ".."
             ∧ (resolveWithIndex ix
                  (Join [ancestor j (label.Pkg from); configName +:+ ".config"])
                  from).2 ≠ None.
Proof. apply findJsConfigFrom_not_found_iff. Qed.

(** X3.  [findJsConfig] returns a label exactly when some directory on the
    way up resolves the config name to it, no directory before it does, and
    the sentinel [..] is not met up to there: the nearest config wins. *)
Theorem findJsConfig_nearest (fuel : nat) (configName : string)
    (ix : resolve.RuleIndex) (from l : label.Label) :
  findJsConfig fuel configName ix from = Done (l, None) ↔
  ∃ k, k < fuel
       ∧ resolveWithIndex ix
           (Join [ancestor k (label.Pkg from); configName +:+ ".config"]) from
         = (l, None)
       ∧ ∀ j, j ≤ k →
           ancestor j (label.Pkg from) ≠ ".."
           ∧ (j < k →
              (resolveWithIndex ix
                 (Join [ancestor j (label.Pkg from); configName +:+ ".config"])
                 from).2 ≠ None).
Proof. apply findJsConfigFrom_found. Qed.

(** X4.  [findVueConfig] is [findJsConfig] for the name "vue". *)
Theorem findVueConfig_is_findJsConfig (fuel : nat) (ix : resolve.RuleIndex)
    (from : label.Label) :
  findVueConfig fuel ix from = findJsConfig fuel "vue" ix from.
Proof.
  unfold findVueConfig, findJsConfig. generalize (label.Pkg from).
  induction fuel as [|fuel IH]; intros dir; [done|].
  cbn [findVueConfigFrom findJsConfigFrom].
  change ("vue" +:+ ".config") with "vue.config".
  destruct (String.eqb dir ".."); [done|].
  destruct (resolveWithIndex ix _ from) as [l [e|]]; [apply IH|done].
Qed.

(** ** [Resolve] *)
Section ResolveMore.

Variables (fuel : nat) (ix : resolve.RuleIndex) (from : label.Label).

(** The log after the loop holds the lines of every iteration. *)
Lemma resolveImports_log imports : ∀ depSet log depSet' log',
  resolveImports fuel ix from (depSet, log) imports = Done (depSet', log') →
  (∀ e, e ∈ log → e ∈ log')
  ∧ ∀ raw dΔ lΔ e,
      raw ∈ imports →
      resolveImport fuel ix from (∅, []) raw = Done (dΔ, lΔ) →
      e ∈ lΔ → e ∈ log'.
Proof.
  induction imports as [|raw imports IH]; intros depSet log depSet' log'.
  - intros [= <- <-]. split; [done|]. by intros ? ? ? ? ?%elem_of_nil.
  - cbn [resolveImports].
    destruct (resolveImport fuel ix from (depSet, log) raw) as [[d1 l1]| |] eqn:Hstep;
      [|done..].
    cbn [mbind result_bind]. intros Hrest.
    destruct (resolveImport_state _ _ _ _ _ _ _ _ Hstep) as (dΔ & lΔ & HΔ & -> & -> & _).
    destruct (IH _ _ _ _ Hrest) as [Hold Hnew]. split.
    + intros e He. apply Hold, elem_of_app. by left.
    + intros raw' d' l' e [->|Hin]%elem_of_cons Hs He.
      * rewrite Hs in HΔ. injection HΔ as <- <-. apply Hold, elem_of_app. by right.
      * eauto.
Qed.

Lemma Resolve_Done_log r imports r' log :
  Resolve fuel ix r imports from = Done (r', log) →
  ∃ depSet log0,
    resolveImports fuel ix from (∅, []) imports = Done (depSet, log0)
    ∧ ∀ e, e ∈ log0 → e ∈ log.
Proof.
  intros HR.
  destruct (resolveImports fuel ix from (∅, []) imports) as [[depSet log0]| |] eqn:Himp.
  2,3: by unfold Resolve in HR; rewrite Himp in HR.
  rewrite (Resolve_after_imports _ _ _ _ _ _ _ Himp) in HR. cbn zeta in HR.
  exists depSet, log0. split; [done|].
  destruct (String.eqb (rule.Kind r) "jest_node_test").
  - destruct (findJsConfig fuel "jest" ix from) as [[l [e|]]| |]; [| |done..];
      cbn [mbind result_bind] in HR; injection HR as <- <-; [|done].
    intros e' ?. apply elem_of_app. by left.
  - by injection HR as <- <-.
Qed.

Lemma Resolve_Done_frame r imports r' log :
  Resolve fuel ix r imports from = Done (r', log) →
  rule.Kind r' = rule.Kind r ∧ rule.Name r' = rule.Name r
  ∧ (∀ key, key ≠ "deps" → key ≠ "config" → rule.Attr r' key = rule.Attr r key)
  ∧ (rule.Kind r = "jest_node_test" →
     ∃ l err, findJsConfig fuel "jest" ix from = Done (l, err)
       ∧ rule.Attr r' "config"
         = match err with
           | None => Some (rule.StringExpr
                             (label.String (label.Rel l (label.Repo from) (label.Pkg from))))
           | Some _ => rule.Attr r "config"
           end).
Proof.
  intros HR.
  destruct (resolveImports fuel ix from (∅, []) imports) as [[depSet log0]| |] eqn:Himp.
  2,3: by unfold Resolve in HR; rewrite Himp in HR.
  rewrite (Resolve_after_imports _ _ _ _ _ _ _ Himp) in HR. cbn zeta in HR.
  set (r2 := if 0 <? size depSet then _ else _) in HR.
  assert (H2 : rule.Kind r2 = rule.Kind r ∧ rule.Name r2 = rule.Name r
               ∧ ∀ key, key ≠ "deps" → rule.Attr r2 key = rule.Attr r key).
  { unfold r2, rule.Attr, rule.SetAttr, rule.DelAttr.
    destruct (0 <? size depSet); cbn [rule.attrs rule.Kind rule.Name];
      split_and!; try done; intros key Hk.
    - by rewrite lookup_insert_ne, lookup_delete_ne.
    - by rewrite lookup_delete_ne. }
  destruct H2 as (Hkind & Hname & Hattr).
  destruct (String.eqb (rule.Kind r) "jest_node_test") eqn:Hk.
  - destruct (findJsConfig fuel "jest" ix from) as [[l [e|]]| |]; [| |done..];
      cbn [mbind result_bind] in HR; injection HR as <- <-.
    + split_and!; [done..|auto|]. intros _. eexists _, _. split; [done|]. by apply Hattr.
    + unfold rule.SetAttr at 1 2 3. cbn [rule.Kind rule.Name].
      split_and!; [done..| |].
      * intros key ? ?. unfold rule.Attr, rule.SetAttr. cbn [rule.attrs].
        rewrite lookup_insert_ne by done. by apply Hattr.
      * intros _. eexists _, _. split; [done|].
        unfold rule.Attr, rule.SetAttr. cbn [rule.attrs]. by rewrite lookup_insert_eq.
  - injection HR as <- <-. split_and!; [done..|auto|].
    intros ?. apply String.eqb_neq in Hk. done.
Qed.

End ResolveMore.

(** X5.  [Resolve] keeps the kind and the name of the rule and every
    attribute but [deps] and [config].  [config] is kept too unless the kind
    is [jest_node_test]; for that kind it becomes the label of the jest
    config the upward search finds, made relative to the origin, and is
    kept when the search finds none. *)
Theorem Resolve_touches_deps_and_config_only (fuel : nat) (ix : resolve.RuleIndex)
    (r : rule.Rule) (imports : list string) (from : label.Label)
    (r' : rule.Rule) (log : list logEntry) :
  Resolve fuel ix r imports from = Done (r', log) →
  rule.Kind r' = rule.Kind r ∧ rule.Name r' = rule.Name r
  ∧ (∀ key, key ≠ "deps" → key ≠ "config" → rule.Attr r' key = rule.Attr r key)
  ∧ (rule.Kind r ≠ "jest_node_test" → rule.Attr r' "config" = rule.Attr r "config")
  ∧ (rule.Kind r = "jest_node_test" →
     ∃ l err, findJsConfig fuel "jest" ix from = Done (l, err)
       ∧ rule.Attr r' "config"
         = match err with
           | None => Some (rule.StringExpr
                             (label.String (label.Rel l (label.Repo from) (label.Pkg from))))
           | Some _ => rule.Attr r "config"
           end).
Proof.
  intros HR.
  destruct (Resolve_Done_frame _ _ _ _ _ _ _ HR) as (H1 & H2 & H3 & H4).
  destruct (Resolve_Done_inv _ _ _ _ _ _ _ HR) as (depSet & log0 & _ & _ & H5).
  split_and!; [done..| |done]. intros Hk. by apply H5.
Qed.

Lemma Resolve_touches_deps_and_config_only_witness :
  ∃ r' log,
    Resolve 6 sampleIx
      (rule.SetAttr (rule.NewRule "jest_node_test" "foo.test") "srcs"
         (rule.stringsExpr ["foo.test.js"]))
      ["lodash"] sampleFrom = Done (r', log)
    ∧ rule.Kind r' = "jest_node_test"
    ∧ rule.Attr r' "srcs" = Some (rule.stringsExpr ["foo.test.js"])
    ∧ rule.Attr r' "config" = Some (rule.StringExpr "//a:jest.config").
Proof.
  eexists _, _. split; [vm_compute; reflexivity|].
  edestruct (Resolve_touches_deps_and_config_only 6 sampleIx
               (rule.SetAttr (rule.NewRule "jest_node_test" "foo.test") "srcs"
                  (rule.stringsExpr ["foo.test.js"]))
               ["lodash"] sampleFrom) as (H1 & _ & H3 & _ & H5);
    [vm_compute; reflexivity|].
  split_and!.
  - exact H1.
  - exact (H3 "srcs" ltac:(discriminate) ltac:(discriminate)).
  - destruct (H5 eq_refl) as (l & err & Hf & Hc).
    vm_compute in Hf. injection Hf as <- <-. exact Hc.
Defined.

(** X6.  The [deps] the rule comes with do not matter to [Resolve], and
    resolving the rule it returned again, with the same imports, returns
    that rule and the same log. *)
Theorem Resolve_discards_old_deps (fuel : nat) (ix : resolve.RuleIndex)
    (r : rule.Rule) (imports : list string) (from : label.Label) :
  (∀ v, Resolve fuel ix (rule.SetAttr r "deps" v) imports from
        = Resolve fuel ix r imports from)
  ∧ (∀ r' log, Resolve fuel ix r imports from = Done (r', log) →
               Resolve fuel ix r' imports from = Done (r', log)).
Proof.
  split.
  - intros v. unfold Resolve.
    assert (rule.DelAttr (rule.SetAttr r "deps" v) "deps" = rule.DelAttr r "deps") as Heq.
    { unfold rule.DelAttr, rule.SetAttr. cbn [rule.Kind rule.Name rule.attrs].
      by rewrite delete_insert_eq. }
    cbn zeta. by rewrite Heq.
  - intros r' log HR.
    destruct (resolveImports fuel ix from (∅, []) imports) as [[depSet log0]| |] eqn:Himp.
    2,3: by unfold Resolve in HR; rewrite Himp in HR.
    rewrite (Resolve_after_imports _ _ r _ _ _ _ Himp) in HR.
    rewrite (Resolve_after_imports _ _ r' _ _ _ _ Himp).
    cbn zeta in *.
    destruct r as [kind name m]. unfold rule.DelAttr, rule.SetAttr in *.
    cbn [rule.Kind rule.Name rule.attrs] in *.
    destruct (String.eqb kind "jest_node_test") eqn:Hk.
    + destruct (findJsConfig fuel "jest" ix from) as [[l [e|]]| |] eqn:Hj; [| |done..];
        cbn [mbind result_bind] in HR; injection HR as <- <-;
        destruct (0 <? size depSet); cbn [rule.Kind rule.Name rule.attrs];
        rewrite Hk; cbn [mbind result_bind]; do 2 f_equal; f_equal;
        apply map_eq; intros k;
        (destruct (decide (k = "deps")) as [->|?];
         [|destruct (decide (k = "config")) as [->|?]]);
        by simplify_map_eq.
    + injection HR as <- <-.
      destruct (0 <? size depSet); cbn [rule.Kind rule.Name rule.attrs];
        rewrite Hk; do 2 f_equal; f_equal;
        apply map_eq; intros k; destruct (decide (k = "deps")) as [->|?];
        by simplify_map_eq.
Qed.

Lemma Resolve_discards_old_deps_witness :
  Resolve 6 sampleIx (rule.SetAttr sampleTestRule "deps" (rule.stringsExpr [":stale"]))
    ["lodash"] sampleFrom
  = Resolve 6 sampleIx sampleTestRule ["lodash"] sampleFrom
  ∧ ∃ r', Resolve 6 sampleIx sampleTestRule ["lodash"] sampleFrom = Done (r', [])
          ∧ Resolve 6 sampleIx r' ["lodash"] sampleFrom = Done (r', []).
Proof.
  split.
  - apply (Resolve_discards_old_deps 6 sampleIx sampleTestRule ["lodash"] sampleFrom).
  - eexists. split; [vm_compute; reflexivity|].
    apply (Resolve_discards_old_deps 6 sampleIx sampleTestRule ["lodash"] sampleFrom).
    vm_compute. reflexivity.
Defined.

(** X7.  When [Resolve] returns, each import does end up in [deps]: the
    label of the rule its normal form resolves to, made relative to the
    origin, or [@npm//] and its package name when the index does not know
    it and it is taken for an npm dependency. *)
Theorem Resolve_deps_complete (fuel : nat) (ix : resolve.RuleIndex) (r : rule.Rule)
    (imports : list string) (from : label.Label) (r' : rule.Rule)
    (log : list logEntry) (raw imp : string) :
  Resolve fuel ix r imports from = Done (r', log) →
  raw ∈ imports →
  normaliseImports fuel raw ix from = Done imp →
  (∀ l, resolveWithIndex ix imp from = (l, None) →
     ∃ deps, rule.Attr r' "deps" = Some (rule.stringsExpr deps)
             ∧ label.String (label.Rel l (label.Repo from) (label.Pkg from)) ∈ deps)
  ∧ (∀ name, (resolveWithIndex ix imp from).2 = Some notFoundError →
       isNpmDependency imp = true → npmPackage imp = Done name →
       ∃ deps, rule.Attr r' "deps" = Some (rule.stringsExpr deps)
               ∧ "@npm//" +:+ name ∈ deps).
Proof.
  intros HR Hin Hn.
  destruct (Resolve_Done_inv _ _ _ _ _ _ _ HR) as (depSet & log0 & Himp & Hdeps & _).
  destruct (resolveImports_deps _ _ _ _ _ _ _ _ Himp) as [_ Hkeys].
  assert (Hkey : ∀ k,
    resolveImport fuel ix from (∅, []) raw = Done (<[k := true]> ∅, []) →
    ∃ deps, rule.Attr r' "deps" = Some (rule.stringsExpr deps) ∧ k ∈ deps).
  { intros k Hstep.
    assert (Hk : is_Some (depSet !! k)).
    { apply Hkeys. right. eexists raw, _, _. split_and!; [done..|].
      rewrite lookup_insert_eq. eauto. }
    rewrite Hdeps.
    assert (Hsize : 0 < size depSet).
    { destruct (size depSet) eqn:Hs; [|lia].
      apply map_size_empty_iff in Hs. subst depSet.
      rewrite lookup_empty in Hk. by destruct Hk. }
    apply Nat.ltb_lt in Hsize as ->. eexists. split; [done|].
    by apply sort_Strings_keys. }
  unfold resolveImport, resolveImportWith in Hkey. rewrite Hn in Hkey.
  cbn [mbind result_bind] in Hkey. split.
  - intros l Hr. rewrite Hr in Hkey. by apply Hkey.
  - intros name Hr Hnpm Hp. destruct (resolveWithIndex ix imp from) as [l err].
    cbn [snd] in Hr. subst err. rewrite Hnpm, Hp in Hkey. by apply Hkey.
Qed.

Lemma Resolve_deps_complete_witness :
  ∃ r' log,
    Resolve 6 sampleIx sampleTestRule ["../../../jest.config"; "@scope/pkg/sub"]
      sampleFrom = Done (r', log)
    ∧ (∃ deps, rule.Attr r' "deps" = Some (rule.stringsExpr deps)
               ∧ "//a:jest.config" ∈ deps)
    ∧ (∃ deps, rule.Attr r' "deps" = Some (rule.stringsExpr deps)
               ∧ "@npm//@scope/pkg" ∈ deps).
Proof.
  eexists _, _. split; [vm_compute; reflexivity|]. split.
  - refine (proj1 (Resolve_deps_complete 6 sampleIx sampleTestRule
                     ["../../../jest.config"; "@scope/pkg/sub"] sampleFrom _ _
                     "../../../jest.config" "a/jest.config" _ _ _)
              (label.New "" "a" "jest.config") _);
      [vm_compute; reflexivity|left|reflexivity|reflexivity].
  - refine (proj2 (Resolve_deps_complete 6 sampleIx sampleTestRule
                     ["../../../jest.config"; "@scope/pkg/sub"] sampleFrom _ _
                     "@scope/pkg/sub" "@scope/pkg/sub" _ _ _)
              "@scope/pkg" _ _ _);
      [vm_compute; reflexivity|right; left|reflexivity..].
Defined.

(** X8.  When [Resolve] returns, the log names every import it dropped
    for a reason: an import that two or more indexed rules provide, with
    the labels of the first two, and an import the index does not know and
    [isNpmDependency] rejects. *)
Theorem Resolve_logs_unresolved (fuel : nat) (ix : resolve.RuleIndex) (r : rule.Rule)
    (imports : list string) (from : label.Label) (r' : rule.Rule)
    (log : list logEntry) (raw imp : string) :
  Resolve fuel ix r imports from = Done (r', log) →
  raw ∈ imports →
  normaliseImports fuel raw ix from = Done imp →
  (∀ m0 m1 ms,
     resolve.FindRulesByImport ix (resolve.mkImportSpec "js" imp) "js" = m0 :: m1 :: ms →
     LogError (ambiguousError (resolve.Label m0) (resolve.Label m1) imp from) ∈ log)
  ∧ (resolve.FindRulesByImport ix (resolve.mkImportSpec "js" imp) "js" = [] →
     isNpmDependency imp = false →
     LogImportNotFound imp ∈ log).
Proof.
  intros HR Hin Hn.
  destruct (Resolve_Done_log _ _ _ _ _ _ _ HR) as (depSet & log0 & Himp & Hsub).
  destruct (resolveImports_log _ _ _ _ _ _ _ _ Himp) as [_ Hlog].
  assert (Hentry : ∀ d e,
    resolveImport fuel ix from (∅, []) raw = Done (d, [e]) → e ∈ log).
  { intros d e Hstep. apply Hsub. eapply Hlog; [done..|]. by left. }
  unfold resolveImport, resolveImportWith, resolveWithIndex in Hentry.
  rewrite Hn in Hentry. cbn [mbind result_bind] in Hentry. split.
  - intros m0 m1 ms Hm. rewrite Hm in Hentry. by eapply Hentry.
  - intros Hm Hnpm. rewrite Hm, Hnpm in Hentry. by eapply Hentry.
Qed.

Lemma Resolve_logs_unresolved_witness :
  ∃ r' log,
    Resolve 6 ambiguousIx sampleTestRule ["@/lib/util"; "~/missing"] sampleFrom
    = Done (r', log)
    ∧ LogError (ambiguousError (label.New "" "lib" "util") (label.New "" "lib" "util2")
                  "lib/util" sampleFrom) ∈ log
    ∧ LogImportNotFound "~/missing" ∈ log.
Proof.
  eexists _, _. split; [vm_compute; reflexivity|]. split.
  - refine (proj1 (Resolve_logs_unresolved 6 ambiguousIx sampleTestRule
                     ["@/lib/util"; "~/missing"] sampleFrom _ _ "@/lib/util" "lib/util"
                     _ _ _)
              (resolve.mkFindResult (label.New "" "lib" "util") [])
              (resolve.mkFindResult (label.New "" "lib" "util2") []) [] _);
      [vm_compute; reflexivity|left|reflexivity|reflexivity].
  - refine (proj2 (Resolve_logs_unresolved 6 ambiguousIx sampleTestRule
                     ["@/lib/util"; "~/missing"] sampleFrom _ _ "~/missing" "~/missing"
                     _ _ _) _ _);
      [vm_compute; reflexivity|right; left|reflexivity..].
Defined.

(** ** Imports of packages and of local files *)
Section ImportForms.

Lemma Split_app a b :
  Split (a +:+ String slash b) slash = Split a slash ++ Split b slash.
Proof.
  induction a as [|c a IH]; [done|].
  rewrite app_String. cbn [Split]. rewrite IH.
  destruct (Ascii.eqb c slash); [done|].
  destruct (Split_head a slash) as (w & ws & ->). done.
Qed.

Lemma Join_two a b :
  a ≠ "" → b ≠ "" → Join [a; b] = Clean (a +:+ String slash b).
Proof.
  intros Ha%String.eqb_neq Hb%String.eqb_neq. unfold Join. cbn [List.filter].
  by rewrite Ha, Hb.
Qed.

Lemma HasPrefix_app_l a b : a ≠ "" → HasPrefix (a +:+ b) "/" = HasPrefix a "/".
Proof. destruct a as [|c a]; [done|]. intros _. by rewrite app_String. Qed.

Lemma fold_cleanElem_dot rooted es st :
  fold_left (cleanElem rooted) ("." :: es) st = fold_left (cleanElem rooted) es st.
Proof. cbn [fold_left]. by destruct st. Qed.

(** A leading "./" of the second element does not change the joined path. *)
Lemma Join_dot_slash pkg x :
  x ≠ "" → HasPrefix x "/" = false →
  Join [pkg; "./" +:+ x] = Join [pkg; x].
Proof.
  intros Hx Hroot.
  assert (Hsplit : Split ("./" +:+ x) slash = "." :: Split x slash).
  { change ("./" +:+ x) with ("." +:+ String slash x). rewrite Split_app. done. }
  destruct (decide (pkg = "")) as [->|Hpkg].
  - assert (Hj : ∀ y, y ≠ "" → Join [""; y] = Clean y).
    { intros y Hy%String.eqb_neq. unfold Join. cbn [List.filter String.eqb negb].
      by rewrite Hy. }
    rewrite !Hj by done. rewrite !Clean_unrooted by done.
    unfold cleanElems. by rewrite Hsplit, fold_cleanElem_dot.
  - rewrite !Join_two by done.
    unfold Clean.
    assert (H1 : String.eqb (pkg +:+ String slash ("./" +:+ x)) "" = false).
    { destruct pkg; [done|]. by rewrite app_String. }
    assert (H2 : String.eqb (pkg +:+ String slash x) "" = false).
    { destruct pkg; [done|]. by rewrite app_String. }
    rewrite H1, H2, !HasPrefix_app_l by done.
    unfold cleanElems. rewrite !Split_app, Hsplit, !fold_left_app.
    by rewrite fold_cleanElem_dot.
Qed.

End ImportForms.

(** X9.  The package name does not depend on what follows it in the
    import: [pkg] and [pkg/sub] give [pkg]; for a scope starting with [@],
    [@scope/pkg] and [@scope/pkg/sub] give [@scope/pkg]. *)
Theorem npmPackage_subpath (seg0 seg1 sub : string) :
  noSlash seg0 → noSlash seg1 →
  (HasPrefix seg0 "@" = false →
     npmPackage seg0 = Done seg0
     ∧ npmPackage (seg0 +:+ "/" +:+ sub) = Done seg0)
  ∧ (HasPrefix seg0 "@" = true →
     npmPackage (seg0 +:+ "/" +:+ seg1) = Done (seg0 +:+ "/" +:+ seg1)
     ∧ npmPackage (seg0 +:+ "/" +:+ seg1 +:+ "/" +:+ sub) = Done (seg0 +:+ "/" +:+ seg1)).
Proof.
  intros H0 H1.
  assert (Hs : ∀ a b, noSlash a → Split (a +:+ "/" +:+ b) slash = a :: Split b slash).
  { intros a b. apply Split_app_slash. }
  unfold npmPackage. rewrite !Hs by done.
  rewrite (Split_noSlash seg0), (Split_noSlash seg1) by done.
  split; intros Hat; cbn [lookup list_lookup]; rewrite Hat.
  - split; reflexivity.
  - split; reflexivity.
Qed.

Lemma npmPackage_subpath_witness :
  npmPackage "lodash/fp/map" = Done "lodash"
  ∧ npmPackage "@babel/core/lib/x" = Done "@babel/core".
Proof.
  split.
  - apply (npmPackage_subpath "lodash" "" "fp/map"); reflexivity.
  - apply (npmPackage_subpath "@babel" "core" "lib/x"); reflexivity.
Defined.

(** X10.  The [~/] rule of [normaliseImports]: the import, with its [~/]
    left on, is joined to the directory of the nuxt config found, or to the
    [src] directory beside the vue config when there is no nuxt config;
    with neither config it is returned as it is, and it is then no npm
    dependency. *)
Theorem normaliseImports_alias (fuel : nat) (ix : resolve.RuleIndex)
    (from : label.Label) (rest : string) :
  let imp := "~/" +:+ rest in
  let dirOf l :=
    Dir (label.String (label.Rel l (label.Repo from) (label.Pkg from))) in
  (∀ l, findJsConfig fuel "nuxt" ix from = Done (l, None) →
     normaliseImports fuel imp ix from = Done (Join [dirOf l; imp]))
  ∧ (∀ l0 e l,
       findJsConfig fuel "nuxt" ix from = Done (l0, Some e) →
       findJsConfig fuel "vue" ix from = Done (l, None) →
       normaliseImports fuel imp ix from = Done (Join [Join [dirOf l; "src"]; imp]))
  ∧ (∀ l0 e0 l1 e1,
       findJsConfig fuel "nuxt" ix from = Done (l0, Some e0) →
       findJsConfig fuel "vue" ix from = Done (l1, Some e1) →
       normaliseImports fuel imp ix from = Done imp
       ∧ isNpmDependency imp = false).
Proof.
  cbn zeta. unfold normaliseImports.
  change (HasPrefix ("~/" +:+ rest) "@/") with false.
  change (HasPrefix ("~/" +:+ rest) "~~/") with false.
  change (HasPrefix ("~/" +:+ rest) "~/") with true.
  change (HasPrefix ("~/" +:+ rest) "../") with false.
  change (HasPrefix ("~/" +:+ rest) "./") with false.
  cbv iota. unfold normaliseAlias. split_and!.
  - by intros l ->.
  - by intros l0 e l -> ->.
  - by intros l0 e0 l1 e1 -> ->.
Qed.

Lemma normaliseImports_alias_witness :
  normaliseImports 6 "~/store" sampleIx sampleFrom = Done "~/store"
  ∧ isNpmDependency "~/store" = false.
Proof.
  refine (proj2 (proj2 (normaliseImports_alias 6 sampleIx sampleFrom "store"))
            label.NoLabel notFoundError label.NoLabel notFoundError _ _);
    reflexivity.
Defined.

Section LocalImports.

Lemma HasPrefix_seg_slash seg t p :
  noSlash seg → noSlash p →
  HasPrefix (seg +:+ String slash t) (p +:+ "/") = true → seg = p.
Proof.
  unfold noSlash. revert p. induction seg as [|c seg IH]; intros [|d p] Hs Hp.
  - done.
  - cbn. intros [Hc _]%andb_true_iff. apply Ascii.eqb_eq in Hc. subst d.
    by cbn in Hp.
  - rewrite app_String. cbn. intros [Hc _]%andb_true_iff. apply Ascii.eqb_eq in Hc.
    subst c. by cbn in Hs.
  - rewrite !app_String. cbn [HasPrefix].
    intros [Hc Hrest]%andb_true_iff. apply Ascii.eqb_eq in Hc as ->.
    cbn in Hs, Hp. apply orb_false_iff in Hs as [_ Hs], Hp as [_ Hp].
    f_equal. by apply IH.
Qed.

(** The path of an element [x] under a clean relative package. *)
Lemma Join_clean_elem segs x :
  segs ≠ [] → Forall realSeg segs → realSeg x →
  Join [String.concat "/" segs; "./" +:+ x] = String.concat "/" (segs ++ [x]).
Proof.
  intros Hne Hall Hx.
  assert (Hx0 : x ≠ "") by apply Hx.
  assert (Hxr : HasPrefix x "/" = false).
  { destruct Hx as (_ & _ & _ & Hs). destruct x as [|c x]; [done|].
    rewrite HasPrefix_slash. unfold noSlash in Hs. cbn in Hs.
    by apply orb_false_iff in Hs as [? _]. }
  rewrite Join_dot_slash by done.
  destruct (concat_real_head _ Hne Hall) as (c & t & Hp & Hc).
  rewrite Join_two; [|by rewrite Hp|done].
  rewrite <- concat_snoc by done.
  assert (Hall' : Forall realSeg (segs ++ [x])).
  { apply Forall_app. split; [done|by constructor]. }
  assert (Hne' : segs ++ [x] ≠ []) by (by destruct segs).
  destruct (concat_real_head _ Hne' Hall') as (c' & t' & Hp' & Hc').
  rewrite Clean_unrooted; [| by rewrite Hp' | by rewrite Hp', HasPrefix_slash].
  rewrite Split_concat; [|done|].
  2: { eapply Forall_impl; [exact Hall'|]. apply realSeg_noSlash. }
  unfold cleanElems. rewrite fold_cleanElem_real by done. cbn [fst].
  rewrite app_nil_r, rev_involutive. by destruct (segs ++ [x]).
Qed.

End LocalImports.

(** X11.  From a package [seg0/...] (a clean relative path whose first
    element is none of the alias prefixes), the import [./x] has the normal
    form [seg0/.../x]; when the index does not know it, the loop of
    [Resolve] takes it for the npm package [seg0] and adds [@npm//seg0], with
    nothing in the log. *)
Theorem unresolved_relative_import_becomes_npm (fuel : nat) (ix : resolve.RuleIndex)
    (from : label.Label) (seg0 : string) (segs : list string) (x : string)
    (depSet : gmap string bool) (log : list logEntry) :
  label.Pkg from = String.concat "/" (seg0 :: segs) →
  Forall realSeg (seg0 :: segs) → realSeg x →
  HasPrefix seg0 "@" = false → seg0 ≠ "~" → seg0 ≠ "~~" →
  let imp := String.concat "/" (seg0 :: segs ++ [x]) in
  normaliseImports fuel ("./" +:+ x) ix from = Done imp
  ∧ ((resolveWithIndex ix imp from).2 = Some notFoundError →
     resolveImport fuel ix from (depSet, log) ("./" +:+ x)
     = Done (<["@npm//" +:+ seg0 := true]> depSet, log)).
Proof.
  intros Hpkg Hall Hx Hat Ht1 Ht2 imp.
  assert (Hn : normaliseImports fuel ("./" +:+ x) ix from = Done imp).
  { change (normaliseImports fuel ("./" +:+ x) ix from)
      with (Done (A:=string) (Join [label.Pkg from; "./" +:+ x])).
    rewrite Hpkg. rewrite Join_clean_elem; [reflexivity|done..]. }
  split; [done|]. intros Hr.
  unfold resolveImport, resolveImportWith. rewrite Hn. cbn [mbind result_bind].
  destruct (resolveWithIndex ix imp from) as [l err]. cbn [snd] in Hr. subst err.
  assert (Himp : ∃ t, imp = seg0 +:+ String slash t).
  { unfold imp. destruct (segs ++ [x]) as [|b l'] eqn:E; [by destruct segs|].
    rewrite concat_cons2. eauto. }
  destruct Himp as (t & Himp).
  inversion Hall as [|? ? H0 _]; subst. destruct H0 as (Hne & Hd1 & Hd2 & Hs0).
  assert (Hnpm : isNpmDependency imp = true).
  { unfold isNpmDependency. apply negb_true_iff. rewrite Himp.
    assert (Hpre : ∀ p, noSlash p → seg0 ≠ p →
              HasPrefix (seg0 +:+ String slash t) (p +:+ "/") = false).
    { intros p Hp Hnp.
      destruct (HasPrefix (seg0 +:+ String slash t) (p +:+ "/")) eqn:E; [|reflexivity].
      apply HasPrefix_seg_slash in E; done. }
    assert (H1 : HasPrefix (seg0 +:+ String slash t) "./" = false)
      by (by apply (Hpre ".")).
    assert (H2 : HasPrefix (seg0 +:+ String slash t) "/" = false)
      by (by apply (Hpre "")).
    assert (H3 : HasPrefix (seg0 +:+ String slash t) "../" = false)
      by (by apply (Hpre "..")).
    assert (H4 : HasPrefix (seg0 +:+ String slash t) "~/" = false)
      by (by apply (Hpre "~")).
    assert (H5 : HasPrefix (seg0 +:+ String slash t) "@/" = false).
    { apply (Hpre "@"); [done|]. by intros ->. }
    assert (H6 : HasPrefix (seg0 +:+ String slash t) "~~/" = false)
      by (by apply (Hpre "~~")).
    by rewrite H1, H2, H3, H4, H5, H6. }
  rewrite Hnpm. unfold npmPackage. rewrite Himp, Split_app_slash by done.
  cbn [lookup list_lookup]. by rewrite Hat.
Qed.

Lemma unresolved_relative_import_becomes_npm_witness :
  normaliseImports 6 "./helper" [] sampleFrom = Done "a/b/c/d/helper"
  ∧ resolveImport 6 [] sampleFrom (∅, []) "./helper" = Done (<["@npm//a" := true]> ∅, []).
Proof.
  assert (Hreal : ∀ s, s = "a" ∨ s = "b" ∨ s = "c" ∨ s = "d" ∨ s = "helper" → realSeg s).
  { intros s [->|[->|[->|[->| ->]]]]; by repeat split. }
  destruct (unresolved_relative_import_becomes_npm 6 [] sampleFrom "a" ["b"; "c"; "d"]
              "helper" ∅ []) as [H1 H2];
    [reflexivity|repeat constructor; apply Hreal; tauto|apply Hreal; tauto
    |reflexivity|discriminate|discriminate|].
  split; [exact H1|exact (H2 eq_refl)].
Defined.




(** ** [generateEmpty] and [GenerateRules] *)
Section Generate.

Lemma knownFiles_lookup files x :
  mapGet (foldl (λ m f, <[f := true]> m) (∅ : gmap string bool) files) x = true ↔ x ∈ files.
Proof.
  assert (Hgen : ∀ (m : gmap string bool),
    mapGet (foldl (λ m f, <[f := true]> m) m files) x = true ↔
    mapGet m x = true ∨ x ∈ files).
  { induction files as [|f files IH]; intros m; cbn [foldl].
    - split; [by left|]. intros [?|?%elem_of_nil]; done.
    - rewrite IH. unfold mapGet. rewrite elem_of_cons.
      destruct (decide (f = x)) as [->|Hne].
      + rewrite lookup_insert_eq. cbn. tauto.
      + rewrite lookup_insert_ne by done. intuition congruence. }
  rewrite Hgen. unfold mapGet. rewrite lookup_empty. cbn. intuition congruence.
Qed.

Lemma isStale_test kinds files r :
  let known := foldl (λ m f, <[f := true]> m) (∅ : gmap string bool) files in
  (if negb (mapGet kinds (rule.Kind r)) then false
   else if (length (rule.AttrStrings r "srcs") =? 0)
           && bool_decide (rule.Attr r "srcs" ≠ None) then false
   else if existsb (λ src, mapGet known src) (rule.AttrStrings r "srcs") then false
   else true) = true ↔ isStale kinds files r.
Proof.
  cbn zeta. unfold isStale.
  destruct (mapGet kinds (rule.Kind r)) eqn:Hk; cbn [negb].
  2: { split; [done|]. by intros [? _]. }
  destruct ((length (rule.AttrStrings r "srcs") =? 0)
            && bool_decide (rule.Attr r "srcs" ≠ None)) eqn:Hs.
  { split; [done|]. intros (_ & [Ha|Hl] & _).
    - apply andb_true_iff in Hs as [_ Hs]. by apply bool_decide_eq_true in Hs.
    - apply andb_true_iff in Hs as [Hs _]. apply Nat.eqb_eq in Hs.
      by destruct (rule.AttrStrings r "srcs"). }
  assert (Ha : rule.Attr r "srcs" = None ∨ rule.AttrStrings r "srcs" ≠ []).
  { apply andb_false_iff in Hs as [Hs|Hs].
    - right. apply Nat.eqb_neq in Hs. by destruct (rule.AttrStrings r "srcs").
    - left. apply bool_decide_eq_false in Hs.
      destruct (rule.Attr r "srcs") as [e|]; [|done]. by destruct Hs. }
  destruct (existsb _ _) eqn:He.
  - split; [done|]. intros (_ & _ & Hall).
    apply existsb_exists in He as (src & Hin & Hsrc).
    apply knownFiles_lookup in Hsrc. rewrite Forall_forall in Hall.
    apply list_elem_of_In in Hin. by destruct (Hall src Hin).
  - split; [|done]. intros _. split_and!; [done..|].
    apply Forall_forall. intros src Hin Hfile.
    assert (existsb (λ src, mapGet (foldl (λ m f, <[f := true]> m) ∅ files) src)
              (rule.AttrStrings r "srcs") = true); [|congruence].
    apply existsb_exists. exists src. split; [by apply list_elem_of_In|].
    by apply knownFiles_lookup.
Qed.

End Generate.

Lemma generateEmpty_filter f files kinds :
  generateEmpty (Some f) files kinds
  = (λ r, rule.NewRule (rule.Kind r) (rule.Name r))
      <$> filter (isStale kinds files) (rule.Rules f).
Proof.
  unfold generateEmpty.
  set (known := foldl (λ m f0, <[f0:=true]> m) (∅ : gmap string bool) files).
  assert (Hgen : ∀ rules acc,
    foldl (λ empty r,
         if negb (mapGet kinds (rule.Kind r)) then empty
         else if (length (rule.AttrStrings r "srcs") =? 0)
                 && bool_decide (rule.Attr r "srcs" ≠ None) then empty
         else if existsb (λ src, mapGet known src) (rule.AttrStrings r "srcs") then empty
         else empty ++ [rule.NewRule (rule.Kind r) (rule.Name r)]) acc rules
    = acc ++ ((λ r, rule.NewRule (rule.Kind r) (rule.Name r))
                <$> filter (isStale kinds files) rules)).
  { induction rules as [|r rules IH]; intros acc; cbn [foldl].
    - by rewrite app_nil_r.
    - rewrite IH, filter_cons. pose proof (isStale_test kinds files r) as Ht.
      cbn zeta in Ht. fold known in Ht.
      destruct (decide (isStale kinds files r)) as [Hst|Hst].
      + apply Ht in Hst.
        destruct (negb _); [done|]. destruct (_ && _); [done|].
        destruct (existsb _ _); [done|]. by rewrite <- app_assoc.
      + destruct (negb _); [done|]. destruct (_ && _); [done|].
        destruct (existsb _ _); [done|]. destruct Hst. by apply Ht. }
  apply Hgen.
Qed.

(** X13.  [generateEmpty] returns nothing without a build file; with one
    it returns, in the order of the file, an empty rule of the same kind and
    name for each declared rule of a known kind whose [srcs] is absent, or
    is a list holding a string, and none of whose sources is among the
    files.  A rule whose [srcs] holds no string (an empty list, or not a
    list) is never returned. *)
Theorem generateEmpty_stale_rules (files : list string) (kinds : gmap string bool) :
  generateEmpty None files kinds = []
  ∧ (∀ f, generateEmpty (Some f) files kinds
          = (λ r, rule.NewRule (rule.Kind r) (rule.Name r))
              <$> filter (isStale kinds files) (rule.Rules f))
  ∧ ∀ f e,
      e ∈ generateEmpty (Some f) files kinds ↔
      ∃ r, r ∈ rule.Rules f ∧ e = rule.NewRule (rule.Kind r) (rule.Name r)
           ∧ mapGet kinds (rule.Kind r) = true
           ∧ (rule.Attr r "srcs" = None ∨ rule.AttrStrings r "srcs" ≠ [])
           ∧ ∀ src, src ∈ rule.AttrStrings r "srcs" → src ∉ files.
Proof.
  split_and!; [done|intros f; apply generateEmpty_filter|].
  intros f e. rewrite generateEmpty_filter, list_elem_of_fmap.
  split.
  - intros (r & -> & Hr). apply list_elem_of_filter in Hr as [(Hk & Ha & Hall) Hin].
    exists r. split_and!; [done..|]. by apply Forall_forall.
  - intros (r & Hin & -> & Hk & Ha & Hall). exists r. split; [done|].
    apply list_elem_of_filter. split; [|done]. split_and!; [done..|].
    by apply Forall_forall.
Qed.

Lemma generateEmpty_stale_rules_witness :
  rule.NewRule "js_library" "gone"
  ∈ generateEmpty (Some staleFile) ["new.ts"] (sourceKinds sampleConfig).
Proof.
  apply (generateEmpty_stale_rules ["new.ts"] (sourceKinds sampleConfig)).
  exists (rule.SetAttr (rule.NewRule "js_library" "gone") "srcs"
            (rule.stringsExpr ["gone.js"])).
  split_and!; [right; left|reflexivity|reflexivity|right; discriminate|].
  intros src Hin Hfile. vm_compute in Hin.
  apply list_elem_of_singleton in Hin, Hfile. congruence.
Defined.

Section GenerateFacts.

Variable jsFileinfo : string -> string -> list string.
Variables (js : JsConfig) (dir : string).

Lemma AttrStrings_srcs kind name f :
  rule.AttrStrings
    (rule.SetAttr (rule.NewRule kind name) "srcs" (rule.stringsExpr [f])) "srcs" = [f].
Proof.
  unfold rule.AttrStrings, rule.SetAttr, rule.NewRule. cbn [rule.attrs].
  by rewrite lookup_insert_eq.
Qed.

Lemma AttrStrings_visibility r v :
  rule.AttrStrings (rule.SetAttr r "visibility" v) "srcs" = rule.AttrStrings r "srcs".
Proof.
  unfold rule.AttrStrings, rule.SetAttr. cbn [rule.attrs].
  by rewrite lookup_insert_ne.
Qed.

Lemma generateFile_step rules imports jsFiles jsImportFiles f :
  ∃ R I,
    generateFile jsFileinfo js dir (rules, imports, jsFiles, jsImportFiles) f
    = (rules ++ R, imports ++ I,
       jsFiles ++ (if importOnly js f then [] else [f]),
       jsImportFiles ++ (if importOnly js f then [f] else []))
    ∧ Forall2 (generatedFor jsFileinfo js dir f) R I
    ∧ length R = (if containsSuffix (JsImportExtenstions js) f then 1 else 0)
                 + (if importOnly js f then 0 else 1).
Proof.
  unfold generateFile. fold (importOnly js f).
  set (base := TrimSuffix (Base f) (Ext (Base f))).
  assert (Himp : ∃ R0 I0,
    (if containsSuffix (JsImportExtenstions js) f
     then (rules ++ [rule.SetAttr
                       (rule.SetAttr (rule.NewRule "js_import" (base +:+ trimExt (Base f)))
                          "srcs" (rule.stringsExpr [f]))
                       "visibility" publicVisibility],
           imports ++ [[]])
     else (rules, imports)) = (rules ++ R0, imports ++ I0)
    ∧ Forall2 (generatedFor jsFileinfo js dir f) R0 I0
    ∧ length R0 = if containsSuffix (JsImportExtenstions js) f then 1 else 0).
  { destruct (containsSuffix (JsImportExtenstions js) f) eqn:Hc.
    - eexists [_], [_]. split_and!; [done| |done]. constructor; [|constructor].
      split; [by rewrite AttrStrings_visibility, AttrStrings_srcs|].
      left. by split_and!.
    - exists [], []. rewrite !app_nil_r. split_and!; [done|constructor|done]. }
  destruct Himp as (R0 & I0 & -> & HF & HL).
  destruct (importOnly js f) eqn:Hskip.
  - exists R0, I0. rewrite !app_nil_r. split_and!; [done..|lia].
  - eexists (R0 ++ [_]), (I0 ++ [_]). rewrite !app_assoc, app_nil_r. cbn zeta.
    split_and!; [reflexivity| |by rewrite length_app, HL].
    apply Forall2_app; [done|]. constructor; [|constructor].
    split.
    + repeat case_match; by rewrite ?AttrStrings_visibility, AttrStrings_srcs.
    + right. split_and!; [done|done| |].
      * repeat case_match; cbn; auto.
      * by repeat case_match.
Qed.

Lemma generateFiles_spec files : ∀ rules imports jsFiles jsImportFiles,
  ∃ R I,
    foldl (generateFile jsFileinfo js dir) (rules, imports, jsFiles, jsImportFiles) files
    = (rules ++ R, imports ++ I,
       jsFiles ++ List.filter (λ f, negb (importOnly js f)) files,
       jsImportFiles ++ List.filter (importOnly js) files)
    ∧ Forall2 (λ r imps, ∃ f, f ∈ files ∧ generatedFor jsFileinfo js dir f r imps) R I
    ∧ length R = length (List.filter (containsSuffix (JsImportExtenstions js)) files)
                 + length (List.filter (λ f, negb (importOnly js f)) files).
Proof.
  induction files as [|f files IH]; intros rules imports jsFiles jsImportFiles.
  - exists [], []. rewrite !app_nil_r. split_and!; [done|constructor|done].
  - cbn [foldl List.filter].
    destruct (generateFile_step rules imports jsFiles jsImportFiles f)
      as (R1 & I1 & -> & HF1 & HL1).
    destruct (IH (rules ++ R1) (imports ++ I1)
                (jsFiles ++ (if importOnly js f then [] else [f]))
                (jsImportFiles ++ (if importOnly js f then [f] else [])))
      as (R2 & I2 & -> & HF2 & HL2).
    exists (R1 ++ R2), (I1 ++ I2). split_and!.
    + rewrite <- !app_assoc. by destruct (importOnly js f).
    + apply Forall2_app.
      * eapply Forall2_impl; [exact HF1|]. intros r imps ?. exists f. split; [left|done].
      * eapply Forall2_impl; [exact HF2|]. intros r imps (f' & ? & ?).
        exists f'. split; [by right|done].
    + rewrite length_app, HL1, HL2.
      destruct (containsSuffix _ f), (importOnly js f); cbn [negb length]; lia.
Qed.

End GenerateFacts.


Lemma Kinds_declared k :
  is_Some (Kinds !! k) ↔ k ∈ ["js_library"; "jest_test"; "js_import"; "ts_project"].
Proof.
  unfold Kinds. cbn [list_to_map foldr fst snd uncurry].
  rewrite !elem_of_cons, elem_of_nil.
  rewrite !lookup_insert_is_Some, lookup_empty, is_Some_alt.
  split.
  - intros [->|[_ [->|[_ [->|[_ [->|[_ []]]]]]]]]; tauto.
  - intros [->|[->|[->|[->|[]]]]].
    + by left.
    + right. split; [done|by left].
    + right. split; [done|]. right. split; [done|by left].
    + right. split; [done|]. right. split; [done|]. right. split; [done|by left].
Qed.

(** X15.  When the library kind of the configuration is one [Kinds]
    declares, every rule [GenerateRules] generates has a kind that [Kinds]
    declares and that [Loads] lists among the symbols to load. *)
Theorem GenerateRules_kinds_declared (jsFileinfo : string -> string -> list string)
    (args : language.GenerateArgs) (r : rule.Rule) :
  is_Some (Kinds !! JsLibrary (language.Config args)) →
  r ∈ language.Gen (GenerateRules jsFileinfo args) →
  is_Some (Kinds !! rule.Kind r)
  ∧ ∃ load, load ∈ Loads ∧ rule.Kind r ∈ Symbols load.
Proof.
  intros Hlib Hr.
  assert (HF : Forall2 (λ r imps, ∃ f,
                 f ∈ language.RegularFiles args ++ language.GenFiles args
                 ∧ generatedFor jsFileinfo (language.Config args) (language.Dir args)
                     f r imps)
                 (language.Gen (GenerateRules jsFileinfo args))
                 (language.Imports (GenerateRules jsFileinfo args))).
  { unfold GenerateRules.
    destruct (generateFiles_spec jsFileinfo (language.Config args) (language.Dir args)
                (language.RegularFiles args ++ language.GenFiles args) [] [] [] [])
      as (R & I & -> & HF & _). done. }
  assert (Hk : is_Some (Kinds !! rule.Kind r)).
  { apply list_elem_of_lookup in Hr as (i & Hi).
    destruct (Forall2_lookup_l _ _ _ _ _ HF Hi) as (imps & _ & f & _ & _ & Hkind).
    destruct Hkind as [(-> & _)|(_ & _ & [->|[->| ->]] & _)];
      [by apply Kinds_declared; set_solver..|done]. }
  split; [done|]. eexists. split; [left|].
  apply Kinds_declared in Hk. cbn [Symbols]. revert Hk.
  rewrite !elem_of_cons, !elem_of_nil. tauto.
Qed.

Lemma GenerateRules_kinds_declared_witness :
  ∃ r, r ∈ language.Gen (GenerateRules sampleFileinfo staleArgs)
       ∧ rule.Kind r = "ts_project"
       ∧ is_Some (Kinds !! rule.Kind r)
       ∧ ∃ load, load ∈ Loads ∧ rule.Kind r ∈ Symbols load.
Proof.
  eexists. split; [left|]. split; [reflexivity|].
  apply (GenerateRules_kinds_declared sampleFileinfo staleArgs).
  - eexists. vm_compute. reflexivity.
  - left.
Defined.

Lemma filter_none {A} (P : A → Prop) `{∀ x, Decision (P x)} (l : list A) :
  (∀ x, x ∈ l → ¬ P x) → filter P l = [].
Proof.
  induction l as [|x l IH]; intros Hall; [done|].
  rewrite filter_cons. destruct (decide (P x)) as [Hp|_].
  - destruct (Hall x); [left|done].
  - apply IH. intros y ?. apply Hall. by right.
Qed.

Lemma elem_of_List_filter {A} (p : A → bool) (l : list A) x :
  x ∈ List.filter p l ↔ x ∈ l ∧ p x = true.
Proof. rewrite !list_elem_of_In. apply filter_In. Qed.

(** X16.  Generating again over its own output flags nothing: with the
    rules [GenerateRules] generated as the declared rules and the same
    files, the stale list is empty, provided the library kind is not
    [js_import] and no file of an import extension is also a source file. *)
Theorem GenerateRules_regenerate_no_stale (jsFileinfo : string -> string -> list string)
    (args : language.GenerateArgs) (pkg : string) :
  let js := language.Config args in
  let files := language.RegularFiles args ++ language.GenFiles args in
  JsLibrary js ≠ "js_import" →
  (∀ f, f ∈ files → containsSuffix (JsImportExtenstions js) f = true →
        importOnly js f = true) →
  language.Empty
    (GenerateRules jsFileinfo
       (language.mkGenerateArgs js (language.Dir args) (language.Rel args)
          (Some (rule.mkFile pkg (language.Gen (GenerateRules jsFileinfo args))))
          (language.RegularFiles args) (language.GenFiles args)))
  = [].
Proof.
  cbn zeta. intros Hlib Hext. unfold GenerateRules.
  cbn [language.Config language.Dir language.RegularFiles language.GenFiles language.File].
  destruct (generateFiles_spec jsFileinfo (language.Config args) (language.Dir args)
              (language.RegularFiles args ++ language.GenFiles args) [] [] [] [])
    as (R & I & -> & HF & _).
  cbn [app language.Gen language.Empty].
  set (js := language.Config args) in *.
  set (files := language.RegularFiles args ++ language.GenFiles args) in *.
  assert (Hrule : ∀ r, r ∈ R → ∃ f, f ∈ files ∧ rule.AttrStrings r "srcs" = [f]
     ∧ ((rule.Kind r = "js_import" ∧ importOnly js f = true)
        ∨ (rule.Kind r ≠ "js_import" ∧ importOnly js f = false))).
  { intros r (i & Hi)%list_elem_of_lookup.
    destruct (Forall2_lookup_l _ _ _ _ _ HF Hi) as (imps & _ & f & Hf & Hsrcs & Hkind).
    exists f. split_and!; [done..|].
    destruct Hkind as [(Hk & _ & Hc & _)|(Hs & _ & Hk & _)].
    - left. split; [done|]. by apply Hext.
    - right. split; [|done]. destruct Hk as [->|[->| ->]]; done. }
  assert (H1 : generateEmpty (Some (rule.mkFile pkg R))
                 (List.filter (λ f, negb (importOnly js f)) files)
                 (<[JsLibrary js:=true]> (<["jest_test":=true]> (<["ts_library":=true]> ∅)))
               = []).
  { rewrite generateEmpty_filter. cbn [rule.Rules].
    rewrite filter_none; [done|]. intros r Hr (Hk & _ & Hall).
    destruct (Hrule r Hr) as (f & Hf & Hsrcs & [[Hkind _]|[_ Himp]]).
    - rewrite Hkind in Hk. unfold mapGet in Hk.
      rewrite !lookup_insert_ne in Hk by done. done.
    - rewrite Hsrcs, Forall_singleton in Hall. apply Hall.
      apply elem_of_List_filter. by rewrite Himp. }
  assert (H2 : generateEmpty (Some (rule.mkFile pkg R))
                 (List.filter (importOnly js) files) (<["js_import":=true]> ∅) = []).
  { rewrite generateEmpty_filter. cbn [rule.Rules].
    rewrite filter_none; [done|]. intros r Hr (Hk & _ & Hall).
    destruct (Hrule r Hr) as (f & Hf & Hsrcs & [[_ Himp]|[Hkind _]]).
    - rewrite Hsrcs, Forall_singleton in Hall. apply Hall.
      by apply elem_of_List_filter.
    - unfold mapGet in Hk. rewrite lookup_insert_ne in Hk by done. done. }
  rewrite H1, H2. by destruct (0 <? _).
Qed.

(** X17.  When two rules provide the same import and [AddRule] records
    both (their labels differ and are new to the index),
    [resolveWithIndex] answers that import with an ambiguity error, whatever
    else is indexed, and the loop of [Resolve] logs it and adds nothing.  A
    rule added a second time is dropped by [AddRule], and is no second
    provider. *)
Theorem shared_import_is_ambiguous (unicodeLower : string → string)
    (ix0 : resolve.RuleIndex) (repo1 repo2 : string)
    (r1 r2 : rule.Rule) (f1 f2 : rule.File) (imp : string) (from : label.Label) :
  resolve.mkImportSpec "js" imp ∈ Imports unicodeLower r1 f1 →
  resolve.mkImportSpec "js" imp ∈ Imports unicodeLower r2 f2 →
  label.New repo1 (rule.Pkg f1) (rule.Name r1) ∉ indexedLabels ix0 →
  label.New repo2 (rule.Pkg f2) (rule.Name r2) ∉ indexedLabels ix0 →
  label.New repo1 (rule.Pkg f1) (rule.Name r1)
  ≠ label.New repo2 (rule.Pkg f2) (rule.Name r2) →
  let ix1 := AddRule unicodeLower ix0 repo1 r1 f1 in
  let ix := AddRule unicodeLower ix1 repo2 r2 f2 in
  (∃ l1 l2, resolveWithIndex ix imp from
            = (label.NoLabel, Some (ambiguousError l1 l2 imp from)))
  ∧ (∀ fuel raw depSet log,
       normaliseImports fuel raw ix from = Done imp →
       ∃ l1 l2, resolveImport fuel ix from (depSet, log) raw
                = Done (depSet, log ++ [LogError (ambiguousError l1 l2 imp from)]))
  ∧ AddRule unicodeLower ix1 repo1 r1 f1 = ix1.
Proof.
  intros H1 H2 Hf1 Hf2 Hne ix1 ix.
  assert (Hix1 : ix1 = ix0 ++ [resolve.mkRuleRecord
                                 (label.New repo1 (rule.Pkg f1) (rule.Name r1))
                                 (Imports unicodeLower r1 f1) [] "js"]).
  { unfold ix1. by rewrite AddRule_fresh. }
  assert (Hf2' : label.New repo2 (rule.Pkg f2) (rule.Name r2) ∉ indexedLabels ix1).
  { rewrite Hix1. unfold indexedLabels. rewrite fmap_app.
    intros [Hin|Hin]%elem_of_app; [done|].
    cbn in Hin. apply list_elem_of_singleton in Hin. by rewrite Hin in Hne. }
  assert (Hr : ∃ l1 l2, resolveWithIndex ix imp from
                        = (label.NoLabel, Some (ambiguousError l1 l2 imp from))).
  { unfold resolveWithIndex, ix. rewrite AddRule_fresh by done. rewrite Hix1.
    rewrite !FindRulesByImport_app.
    unfold resolve.FindRulesByImport at 2 3.
    cbn [List.filter resolve.rr_importedAs resolve.rr_lang String.eqb].
    rewrite !bool_decide_eq_true_2 by done. cbn.
    destruct (resolve.FindRulesByImport ix0 _ "js") as [|m0 [|m1 ms]]; cbn; eauto. }
  split_and!; [done| |].
  - intros fuel raw depSet log Hn. destruct Hr as (l1 & l2 & Hr).
    exists l1, l2. unfold resolveImport, resolveImportWith. rewrite Hn.
    cbn [mbind result_bind]. by rewrite Hr.
  - apply AddRule_twice.
Qed.

Lemma shared_import_is_ambiguous_witness :
  (∃ l1 l2, resolveWithIndex ambiguousIx "lib/util" sampleFrom
            = (label.NoLabel, Some (ambiguousError l1 l2 "lib/util" sampleFrom)))
  ∧ resolveWithIndex
      (AddRule latin1Lower
         (AddRule latin1Lower [] "" (utilRule "util") (rule.mkFile "lib" []))
         "" (utilRule "util") (rule.mkFile "lib" []))
      "lib/util" sampleFrom
    = (label.New "" "lib" "util", None).
Proof.
  split; [|reflexivity].
  refine (proj1 (shared_import_is_ambiguous latin1Lower [] "" ""
                   (utilRule "util") (utilRule "util2")
                   (rule.mkFile "lib" []) (rule.mkFile "lib" []) "lib/util" sampleFrom
                   _ _ _ _ _));
    [left|left|apply not_elem_of_nil|apply not_elem_of_nil|discriminate].
Defined.

Lemma GenerateRules_regenerate_no_stale_witness :
  let args := language.mkGenerateArgs (mkJsConfig [".svg"] true "js_library")
                "/ws/a" "a" None ["a.js"; "logo.svg"; "a.test.js"] [] in
  rule.Kind <$> language.Gen (GenerateRules sampleFileinfo args)
  = ["js_library"; "js_import"; "jest_test"]
  ∧ language.Empty
      (GenerateRules sampleFileinfo
         (language.mkGenerateArgs (mkJsConfig [".svg"] true "js_library") "/ws/a" "a"
            (Some (rule.mkFile "a" (language.Gen (GenerateRules sampleFileinfo args))))
            ["a.js"; "logo.svg"; "a.test.js"] []))
    = [].
Proof.
  cbn zeta. split; [reflexivity|].
  apply (GenerateRules_regenerate_no_stale sampleFileinfo
           (language.mkGenerateArgs (mkJsConfig [".svg"] true "js_library")
              "/ws/a" "a" None ["a.js"; "logo.svg"; "a.test.js"] []) "a").
  - discriminate.
  - intros f Hin. cbn in Hin.
    repeat (apply elem_of_cons in Hin as [->|Hin]); [discriminate|reflexivity|discriminate|].
    by apply elem_of_nil in Hin.
Defined.
